(** * psychopy.tools.viewtools: projection and view matrices

    A shallow embedding of [psychopy/tools/viewtools.py] and the properties
    its specification states about it.

    Numbers.  The source computes in IEEE arithmetic: Python floats are
    binary64 values, the arrays are float32.  The file has two readings of
    it.

    The exact reading is the type [float]: an exact real, or one of the
    three non-finite IEEE values.  Rounding, overflow and underflow of
    finite values, the narrowing to float32 and the sign of zero are
    abstracted away; what is kept is the propagation of infinities and NaN
    through the arithmetic and the difference between the two division
    operators of the source: [/] on Python floats raises
    [ZeroDivisionError] on a zero divisor, numpy's division returns an
    infinity or NaN.  All five functions are embedded in this reading.  It
    decides what does not depend on rounding: which calls raise and which
    return, the shapes, the entries that are constants, the values that
    are NaN; and it gives the algebra of the formulas, which the machine
    follows up to rounding only.

    The machine reading is module [IEEE]: the binary64 operations of the
    kernel's primitive floats and the rounding to binary32 of every entry
    stored in a matrix.  [computeFrustum] and
    [perspectiveProjectionMatrix], which work on scalars, are embedded a
    second time in it, operation by operation.  It computes, and it shows
    where a property of the exact reading holds of the code up to rounding
    and not exactly.

    Arrays.  A vector argument is a Python list of floats of any length;
    [np.asarray] makes a fresh rank-1 array of it, so the in-place divisions
    of the source touch no data of the caller.  The numpy operations are
    modelled on arrays of rank 0 and 1 with their shape rules (broadcasting,
    the 2- and 3-component cases of [np.cross], the equal lengths of
    [np.dot], slice assignment), since it is these rules, and nothing in
    the source, that accept or reject an argument.

    Control.  A call either returns a value or raises; [result] is the
    error monad that threads the exception through the statements of a
    function in source order.

    The reals do not compute: a concrete evaluation in the exact reading is
    a lemma, proved by rewriting with the evaluation lemmas of the
    arithmetic. *)

From Stdlib Require Import Reals Lra Lia List Bool PeanoNat.
From Stdlib Require PrimFloat SpecFloat FloatOps.
Import ListNotations.

Set Implicit Arguments.

(** ** Exceptions and results *)

Inductive exn : Type :=
| ZeroDivisionError
| ValueError
| TypeError
| IndexError.

Inductive result (A : Type) : Type :=
| Ok (a : A)
| Raise (e : exn).

Arguments Ok {A} a.
Arguments Raise {A} e.

Definition bind {A B : Type} (m : result A) (k : A -> result B) : result B :=
  match m with
  | Ok a => k a
  | Raise e => Raise e
  end.

Notation "x <- m ;; k" := (bind m (fun x => k))
  (at level 61, m at next level, right associativity).

Definition returns {A : Type} (m : result A) : Prop := exists a, m = Ok a.
Definition raises {A : Type} (m : result A) : Prop := exists e, m = Raise e.

(** ** Floating-point values: the exact reading

    A finite value is a real number and the four operations on finite
    values are those of the reals: no operation rounds, overflows or
    underflows, and there is one zero. *)

Open Scope R_scope.

Inductive float : Type :=
| Fin (r : R)
| PInf
| NInf
| NaN.

Definition finite (x : float) : Prop :=
  match x with Fin _ => True | _ => False end.

Definition Rzero (r : R) : bool := if Req_dec_T r 0 then true else false.
Definition Rpos (r : R) : bool := if Rlt_dec 0 r then true else false.

Definition inf (positive : bool) : float := if positive then PInf else NInf.

(** An infinity of sign [positive] multiplied by the real [r]. *)
Definition scale_inf (positive : bool) (r : R) : float :=
  if Rzero r then NaN else inf (eqb positive (Rpos r)).

Definition fneg (x : float) : float :=
  match x with
  | Fin a => Fin (- a)
  | PInf => NInf
  | NInf => PInf
  | NaN => NaN
  end.

Definition fadd (x y : float) : float :=
  match x, y with
  | Fin a, Fin b => Fin (a + b)
  | NaN, _ | _, NaN => NaN
  | PInf, NInf | NInf, PInf => NaN
  | PInf, _ | _, PInf => PInf
  | NInf, _ | _, NInf => NInf
  end.

Definition fsub (x y : float) : float :=
  match x, y with
  | Fin a, Fin b => Fin (a - b)
  | NaN, _ | _, NaN => NaN
  | PInf, PInf | NInf, NInf => NaN
  | PInf, _ | _, NInf => PInf
  | NInf, _ | _, PInf => NInf
  end.

Definition fmul (x y : float) : float :=
  match x, y with
  | Fin a, Fin b => Fin (a * b)
  | NaN, _ | _, NaN => NaN
  | PInf, Fin b | Fin b, PInf => scale_inf true b
  | NInf, Fin b | Fin b, NInf => scale_inf false b
  | PInf, PInf | NInf, NInf => PInf
  | PInf, NInf | NInf, PInf => NInf
  end.

(** IEEE division, the one numpy performs: a zero divisor gives an
    infinity, or NaN for [0/0]; nothing is raised. *)
Definition fdiv (x y : float) : float :=
  match x, y with
  | Fin a, Fin b =>
      if Rzero b then (if Rzero a then NaN else inf (Rpos a))
      else Fin (a / b)
  | NaN, _ | _, NaN => NaN
  | Fin _, (PInf | NInf) => Fin 0
  | PInf, Fin b => if Rzero b then PInf else inf (Rpos b)
  | NInf, Fin b => if Rzero b then NInf else inf (negb (Rpos b))
  | (PInf | NInf), (PInf | NInf) => NaN
  end.

Definition fsqrt (x : float) : float :=
  match x with
  | Fin a => if Rlt_dec a 0 then NaN else Fin (sqrt a)
  | PInf => PInf
  | NInf | NaN => NaN
  end.

(** Python's [x / y] on floats. *)
Definition truediv (x y : float) : result float :=
  match y with
  | Fin b => if Rzero b then Raise ZeroDivisionError else Ok (fdiv x y)
  | _ => Ok (fdiv x y)
  end.

Declare Scope float_scope.
Delimit Scope float_scope with fl.
Bind Scope float_scope with float.
Notation "x + y" := (fadd x y) : float_scope.
Notation "x - y" := (fsub x y) : float_scope.
Notation "x * y" := (fmul x y) : float_scope.
Notation "- x" := (fneg x) : float_scope.
Notation "x / y" := (truediv x y) : float_scope.

(** Float literals of the source. *)
Coercion Fin : R >-> float.

(** ** The [Frustum] named tuple *)

Record Frustum : Type := mkFrustum {
  left : float;
  right : float;
  bottom : float;
  top : float;
  nearVal : float;
  farVal : float
}.

(** ** [computeFrustum]

    [float(x)] of a float is the identity and is not written out. *)

Definition computeFrustum
    (scrWidth scrAspect scrDist convergeOffset eyeOffset nearClip farClip : float)
    : result Frustum :=
  let d := (scrWidth * (convergeOffset + scrDist))%fl in
  ratio <- (nearClip / (convergeOffset + scrDist))%fl ;;
  let right := ((d - eyeOffset) * ratio)%fl in
  let left := ((d + eyeOffset) * - ratio)%fl in
  q <- (scrWidth / scrAspect)%fl ;;
  let top := (q * nearClip)%fl in
  let bottom := (- top)%fl in
  Ok (mkFrustum left right bottom top nearClip farClip).

(** ** numpy arrays

    Only what the source uses is modelled: arrays of rank 0 and 1 built from
    Python lists, and rank-2 arrays obtained from [np.zeros((4, 4))]. *)

Fixpoint update {A : Type} (l : list A) (n : nat) (v : A) : list A :=
  match l, n with
  | [], _ => []
  | _ :: t, O => v :: t
  | h :: t, S n' => h :: update t n' v
  end.

Fixpoint map2 {A B C : Type} (f : A -> B -> C) (l : list A) (l' : list B)
    : list C :=
  match l, l' with
  | a :: t, b :: t' => f a b :: map2 f t t'
  | _, _ => []
  end.

Definition fsum (l : list float) : float := fold_left fadd l (Fin 0).

Definition matrix : Type := list (list float).

(** [M[i, j]]; the accessor of the theorems, the source only writes. *)
Definition getitem (M : matrix) (i j : nat) : float :=
  nth j (nth i M []) NaN.

(** [M[i, j] = v]; the value is stored as it is, where the source rounds
    it to float32 ([IEEE.setitem] below does). *)
Definition setitem (M : matrix) (i j : nat) (v : float) : result matrix :=
  match nth_error M i with
  | Some row =>
      if (j <? length row)%nat then Ok (update M i (update row j v))
      else Raise IndexError
  | None => Raise IndexError
  end.

Module np.

Inductive ndarray : Type :=
| Scalar (x : float)
| Vector (xs : list float).

(** [np.asarray(l, np.float32)] of a Python list of floats; the narrowing
    of the elements to float32 is not modelled. *)
Definition asarray (l : list float) : ndarray := Vector l.

Definition zeros (rows cols : nat) : matrix :=
  repeat (repeat (Fin 0) cols) rows.

(** Element-wise binary operation with broadcasting: two rank-1 operands
    need equal lengths unless one of them has length 1. *)
Definition broadcast (op : float -> float -> float) (a b : ndarray)
    : result ndarray :=
  match a, b with
  | Scalar x, Scalar y => Ok (Scalar (op x y))
  | Scalar x, Vector ys => Ok (Vector (map (op x) ys))
  | Vector xs, Scalar y => Ok (Vector (map (fun x => op x y) xs))
  | Vector xs, Vector ys =>
      if (length xs =? length ys)%nat then Ok (Vector (map2 op xs ys))
      else match xs, ys with
           | [x], _ => Ok (Vector (map (op x) ys))
           | _, [y] => Ok (Vector (map (fun x => op x y) xs))
           | _, _ => Raise ValueError
           end
  end.

Definition subtract : ndarray -> ndarray -> result ndarray := broadcast fsub.
Definition multiply : ndarray -> ndarray -> result ndarray := broadcast fmul.

Definition negative (a : ndarray) : ndarray :=
  match a with
  | Scalar x => Scalar (fneg x)
  | Vector xs => Vector (map fneg xs)
  end.

(** [a / s] and [a /= s] for a numpy scalar [s]. *)
Definition divide_scalar (a : ndarray) (s : float) : ndarray :=
  match a with
  | Scalar x => Scalar (fdiv x s)
  | Vector xs => Vector (map (fun x => fdiv x s) xs)
  end.

(** [s / a] for a Python float [s]: numpy's division, nothing raised. *)
Definition rdivide_scalar (s : float) (a : ndarray) : ndarray :=
  match a with
  | Scalar x => Scalar (fdiv s x)
  | Vector xs => Vector (map (fdiv s) xs)
  end.

Definition ravel (a : ndarray) : list float :=
  match a with
  | Scalar x => [x]
  | Vector xs => xs
  end.

Module linalg.
(** [np.linalg.norm(a)]: the square root of [dot(x, x)] for the
    flattened array, both exact: the sum of squares of finite values
    neither overflows nor underflows. *)
Definition norm (a : ndarray) : float :=
  fsqrt (fsum (map (fun x => fmul x x) (ravel a))).
End linalg.

(** [np.dot]: a rank-0 operand multiplies element-wise; two rank-1
    operands need the same length (no broadcasting). *)
Definition dot (a b : ndarray) : result ndarray :=
  match a, b with
  | Vector xs, Vector ys =>
      if (length xs =? length ys)%nat
      then Ok (Scalar (fsum (map2 fmul xs ys)))
      else Raise ValueError
  | _, _ => multiply a b
  end.

(** [np.cross]: the last axis of both operands must have 2 or 3
    components (a rank-0 operand has no axis); a 2-vector stands for a
    3-vector with zero third component, and the product of two 2-vectors
    is the rank-0 z component. *)
Definition cross (a b : ndarray) : result ndarray :=
  match a, b with
  | Vector [a0; a1], Vector [b0; b1] =>
      Ok (Scalar (a0 * b1 - a1 * b0)%fl)
  | Vector [a0; a1], Vector [b0; b1; b2] =>
      Ok (Vector [a1 * b2; - (a0 * b2); a0 * b1 - a1 * b0]%fl)
  | Vector [a0; a1; a2], Vector [b0; b1; b2] =>
      Ok (Vector [a1 * b2 - a2 * b1; a2 * b0 - a0 * b2; a0 * b1 - a1 * b0]%fl)
  | Vector [a0; a1; a2], Vector [b0; b1] =>
      Ok (Vector [- (a2 * b1); a2 * b0; a0 * b1 - a1 * b0]%fl)
  | _, _ => Raise ValueError
  end.

(** [np.fill_diagonal(M, v)] *)
Definition fill_diagonal (M : matrix) (v : float) : matrix :=
  map (fun ir => update (snd ir) (fst ir) v) (combine (seq 0 (length M)) M).

Definition column (M : matrix) (j : nat) : list float :=
  map (fun row => nth j row NaN) M.

(** [np.matmul(A, B)] for a square matrix [B] whose size is the length of
    the rows of [A]. *)
Definition matmul (A B : matrix) : matrix :=
  map (fun row =>
         map (fun j => fsum (map2 fmul row (column B j)))
             (seq 0 (length B)))
      A.

End np.

(** [float(a)] of a numpy value. *)
Definition to_float (a : np.ndarray) : result float :=
  match a with
  | np.Scalar x => Ok x
  | np.Vector [x] => Ok x
  | np.Vector _ => Raise TypeError
  end.

(** The value assigned to a slice of three elements, after broadcasting. *)
Definition broadcast3 (a : np.ndarray) : result (list float) :=
  match a with
  | np.Scalar x => Ok [x; x; x]
  | np.Vector [x] => Ok [x; x; x]
  | np.Vector [x; y; z] => Ok [x; y; z]
  | np.Vector _ => Raise ValueError
  end.

(** [M[:3, j] = a] on a 4x4 matrix. *)
Definition setcol3 (M : matrix) (j : nat) (a : np.ndarray) : result matrix :=
  v <- broadcast3 a ;;
  M <- setitem M 0 j (nth 0 v NaN) ;;
  M <- setitem M 1 j (nth 1 v NaN) ;;
  setitem M 2 j (nth 2 v NaN).

(** [M[i, :3] = a] on a 4x4 matrix. *)
Definition setrow3 (M : matrix) (i : nat) (a : np.ndarray) : result matrix :=
  v <- broadcast3 a ;;
  M <- setitem M i 0 (nth 0 v NaN) ;;
  M <- setitem M i 1 (nth 1 v NaN) ;;
  setitem M i 2 (nth 2 v NaN).

(** ** [orthoProjectionMatrix] *)

Definition orthoProjectionMatrix (left right bottom top near far : float)
    : result matrix :=
  let projMat := np.zeros 4 4 in
  v <- (Fin 2 / (right - left))%fl ;;
  projMat <- setitem projMat 0 0 v ;;
  v <- (Fin 2 / (top - bottom))%fl ;;
  projMat <- setitem projMat 1 1 v ;;
  v <- (- Fin 2 / (far - near))%fl ;;
  projMat <- setitem projMat 2 2 v ;;
  v <- ((right + left) / (right - left))%fl ;;
  projMat <- setitem projMat 3 0 v ;;
  v <- ((top + bottom) / (top - bottom))%fl ;;
  projMat <- setitem projMat 3 1 v ;;
  v <- ((far + near) / (far - near))%fl ;;
  projMat <- setitem projMat 3 2 v ;;
  projMat <- setitem projMat 3 3 (Fin 1) ;;
  Ok projMat.

(** ** [perspectiveProjectionMatrix] *)

Definition perspectiveProjectionMatrix (left right bottom top near far : float)
    : result matrix :=
  let projMat := np.zeros 4 4 in
  v <- ((Fin 2 * near) / (right - left))%fl ;;
  projMat <- setitem projMat 0 0 v ;;
  v <- ((Fin 2 * near) / (top - bottom))%fl ;;
  projMat <- setitem projMat 1 1 v ;;
  v <- ((right + left) / (right - left))%fl ;;
  projMat <- setitem projMat 2 0 v ;;
  v <- ((top + bottom) / (top - bottom))%fl ;;
  projMat <- setitem projMat 2 1 v ;;
  v <- (- (far + near) / (far - near))%fl ;;
  projMat <- setitem projMat 2 2 v ;;
  projMat <- setitem projMat 2 3 (- Fin 1)%fl ;;
  v <- (- (Fin 2 * far * near) / (far - near))%fl ;;
  projMat <- setitem projMat 3 2 v ;;
  Ok projMat.

(** ** [generalPerspectiveProjection]

    The statements up to the call of [perspectiveProjectionMatrix] (the
    screen basis and the off-axis frustum bounds) are [offAxisFrustum];
    the bounds are kept together with the two clipping distances, in the
    order in which they are passed on. *)

Record OffAxis : Type := mkOffAxis {
  vr : np.ndarray;
  vu : np.ndarray;
  vn : np.ndarray;
  bounds : Frustum
}.

Definition offAxisFrustum
    (posBottomLeft posBottomRight posTopLeft eyePos : list float)
    (nearClip farClip : float) : result OffAxis :=
  let posBottomLeft := np.asarray posBottomLeft in
  let posBottomRight := np.asarray posBottomRight in
  let posTopLeft := np.asarray posTopLeft in
  let eyePos := np.asarray eyePos in
  vr <- np.subtract posBottomRight posBottomLeft ;;
  let vr := np.divide_scalar vr (np.linalg.norm vr) in
  vu <- np.subtract posTopLeft posBottomLeft ;;
  let vu := np.divide_scalar vu (np.linalg.norm vu) in
  vn <- np.cross vr vu ;;
  let vn := np.divide_scalar vn (np.linalg.norm vn) in
  va <- np.subtract posBottomLeft eyePos ;;
  vb <- np.subtract posBottomRight eyePos ;;
  vc <- np.subtract posTopLeft eyePos ;;
  d <- np.dot va vn ;;
  let dist := np.negative d in
  let nearOverDist := np.rdivide_scalar nearClip dist in
  p <- np.dot vr va ;;
  p <- np.multiply p nearOverDist ;;
  left <- to_float p ;;
  p <- np.dot vr vb ;;
  p <- np.multiply p nearOverDist ;;
  right <- to_float p ;;
  p <- np.dot vu va ;;
  p <- np.multiply p nearOverDist ;;
  bottom <- to_float p ;;
  p <- np.dot vu vc ;;
  p <- np.multiply p nearOverDist ;;
  top <- to_float p ;;
  Ok (mkOffAxis vr vu vn (mkFrustum left right bottom top nearClip farClip)).

Definition generalPerspectiveProjection
    (posBottomLeft posBottomRight posTopLeft eyePos : list float)
    (nearClip farClip : float) : result (matrix * matrix) :=
  o <- offAxisFrustum posBottomLeft posBottomRight posTopLeft eyePos
         nearClip farClip ;;
  let eyePos := np.asarray eyePos in
  projMat <- perspectiveProjectionMatrix
               (left (bounds o)) (right (bounds o))
               (bottom (bounds o)) (top (bounds o)) nearClip farClip ;;
  let rotMat := np.zeros 4 4 in
  rotMat <- setcol3 rotMat 0 (vr o) ;;
  rotMat <- setcol3 rotMat 1 (vu o) ;;
  rotMat <- setcol3 rotMat 2 (vn o) ;;
  rotMat <- setitem rotMat 3 3 (Fin 1) ;;
  let transMat := np.zeros 4 4 in
  let transMat := np.fill_diagonal transMat (Fin 1) in
  transMat <- setrow3 transMat 3 (np.negative eyePos) ;;
  Ok (projMat, np.matmul transMat rotMat).

(** ** [lookAt] *)

Definition lookAt (eyePos centerPos upVec : list float) : result matrix :=
  let eyePos := np.asarray eyePos in
  let centerPos := np.asarray centerPos in
  let upVec := np.asarray upVec in
  f <- np.subtract centerPos eyePos ;;
  let f := np.divide_scalar f (np.linalg.norm f) in
  let upVec := np.divide_scalar upVec (np.linalg.norm upVec) in
  s <- np.cross f upVec ;;
  u <- np.cross (np.divide_scalar s (np.linalg.norm s)) f ;;
  let rotMat := np.zeros 4 4 in
  rotMat <- setcol3 rotMat 0 s ;;
  rotMat <- setcol3 rotMat 1 u ;;
  rotMat <- setcol3 rotMat 2 (np.negative f) ;;
  rotMat <- setitem rotMat 3 3 (Fin 1) ;;
  let transMat := np.zeros 4 4 in
  let transMat := np.fill_diagonal transMat (Fin 1) in
  transMat <- setrow3 transMat 3 (np.negative eyePos) ;;
  Ok (np.matmul transMat rotMat).

(** ** The machine reading

    The scalars of [computeFrustum] and of the projection builders are
    Python floats, that is IEEE binary64 values, and a builder stores each
    entry in a float32 array.  Module [IEEE] embeds [computeFrustum] and
    [perspectiveProjectionMatrix] over the binary64 numbers of the kernel,
    with the operations in the order of the source and the rounding to
    binary32 at every store.  [lookAt] and [generalPerspectiveProjection]
    are not embedded here: their sums of products are numpy's float32
    [dot], [norm] and [matmul], whose order of summation the source does
    not fix. *)

Module IEEE.

Definition binary64 : Set := PrimFloat.float.

(** The binary64 value nearest to [m * 2 ^ e], ties to even: [m * 2 ^ e]
    itself when [m] has at most 53 bits and the value is in range. *)
Definition dyadic (m e : Z) : binary64 :=
  FloatOps.SF2Prim (SpecFloat.binary_normalize 53 1024 m e false).

(** A float literal of integral value. *)
Definition of_Z (z : Z) : binary64 := dyadic z 0.

(** [np.float32(x)]: the binary32 value nearest to [x], ties to even, an
    infinity beyond the range of binary32; the result is kept as the
    binary64 value equal to it. *)
Definition float32 (x : binary64) : binary64 :=
  match FloatOps.Prim2SF x with
  | SpecFloat.S754_finite s m e =>
      FloatOps.SF2Prim (SpecFloat.binary_round 24 128 s m e)
  | _ => x
  end.

Declare Scope ieee_scope.
Delimit Scope ieee_scope with ieee.
Bind Scope ieee_scope with binary64.

(** The operations of Python floats: the binary64 operations, rounded to
    nearest with ties to even. *)
Definition add : binary64 -> binary64 -> binary64 := PrimFloat.add.
Definition sub : binary64 -> binary64 -> binary64 := PrimFloat.sub.
Definition mul : binary64 -> binary64 -> binary64 := PrimFloat.mul.
Definition neg : binary64 -> binary64 := PrimFloat.opp.

(** IEEE division, the one numpy performs. *)
Definition div : binary64 -> binary64 -> binary64 := PrimFloat.div.

(** Python's [x / y] on floats: a zero divisor of either sign raises. *)
Definition truediv (x y : binary64) : result binary64 :=
  if PrimFloat.eqb y PrimFloat.zero then Raise ZeroDivisionError
  else Ok (div x y).

Notation "x + y" := (add x y) : ieee_scope.
Notation "x - y" := (sub x y) : ieee_scope.
Notation "x * y" := (mul x y) : ieee_scope.
Notation "- x" := (neg x) : ieee_scope.
Notation "x / y" := (truediv x y) : ieee_scope.

Record Frustum : Set := mkFrustum {
  left : binary64;
  right : binary64;
  bottom : binary64;
  top : binary64;
  nearVal : binary64;
  farVal : binary64
}.

Definition computeFrustum
    (scrWidth scrAspect scrDist convergeOffset eyeOffset nearClip farClip
       : binary64)
    : result Frustum :=
  let d := (scrWidth * (convergeOffset + scrDist))%ieee in
  ratio <- (nearClip / (convergeOffset + scrDist))%ieee ;;
  let right := ((d - eyeOffset) * ratio)%ieee in
  let left := ((d + eyeOffset) * - ratio)%ieee in
  q <- (scrWidth / scrAspect)%ieee ;;
  let top := (q * nearClip)%ieee in
  let bottom := (- top)%ieee in
  Ok (mkFrustum left right bottom top nearClip farClip).

(** A float32 array of rank 2, each entry held as the binary64 value
    equal to it. *)
Definition matrix : Type := list (list binary64).

Definition zeros (rows cols : nat) : matrix :=
  repeat (repeat PrimFloat.zero cols) rows.

(** [M[i, j] = v] on a float32 array: [v] is rounded to binary32. *)
Definition setitem (M : matrix) (i j : nat) (v : binary64) : result matrix :=
  match nth_error M i with
  | Some row =>
      if (j <? length row)%nat
      then Ok (update M i (update row j (float32 v)))
      else Raise IndexError
  | None => Raise IndexError
  end.

Definition perspectiveProjectionMatrix
    (left right bottom top near far : binary64) : result matrix :=
  let projMat := zeros 4 4 in
  v <- ((of_Z 2 * near) / (right - left))%ieee ;;
  projMat <- setitem projMat 0 0 v ;;
  v <- ((of_Z 2 * near) / (top - bottom))%ieee ;;
  projMat <- setitem projMat 1 1 v ;;
  v <- ((right + left) / (right - left))%ieee ;;
  projMat <- setitem projMat 2 0 v ;;
  v <- ((top + bottom) / (top - bottom))%ieee ;;
  projMat <- setitem projMat 2 1 v ;;
  v <- (- (far + near) / (far - near))%ieee ;;
  projMat <- setitem projMat 2 2 v ;;
  projMat <- setitem projMat 2 3 (- of_Z 1)%ieee ;;
  v <- (- (of_Z 2 * far * near) / (far - near))%ieee ;;
  projMat <- setitem projMat 3 2 v ;;
  Ok projMat.

(** A binary64 row vector times a float32 matrix, [np.matmul(v, M)]:
    numpy widens the matrix and works in binary64.  The sums are taken in
    the order of the index. *)
Definition premultiply (v : list binary64) (M : matrix) : list binary64 :=
  map (fun j =>
         fold_left add
           (map2 mul v (map (fun row => nth j row PrimFloat.nan) M))
           PrimFloat.zero)
      (seq 0 (length M)).

(** The homogeneous divide [v / v[3]], numpy's division. *)
Definition hdivide (v : list binary64) : list binary64 :=
  map (fun x => div x (nth 3 v PrimFloat.nan)) v.




End IEEE.

(** ** Vocabulary of the properties *)

(** A point as a row vector times a matrix: [np.matmul(v, M)], computed
    as the only row of [np.matmul([v], M)]. *)
Definition premultiply (v : list float) (M : matrix) : list float :=
  hd [] (np.matmul [v] M).

(** The homogeneous divide of a 4-vector by its last component. *)
Definition hdivide (v : list float) : list float :=
  map (fun x => fdiv x (nth 3 v NaN)) v.

(** The upper-left 3x3 block of a 4x4 matrix, and its columns. *)
Definition block3 (M : matrix) : matrix := map (firstn 3) (firstn 3 M).

Definition column3 (M : matrix) (j : nat) : list float :=
  np.column (firstn 3 M) j.

Definition dot3 (a b : list float) : float := fsum (map2 fmul a b).

(** The first three entries of the last row: the translation of a matrix
    that acts on row vectors. *)
Definition translation (M : matrix) : list float := firstn 3 (nth 3 M []).

Definition has_nonfinite (M : matrix) : Prop :=
  Exists (Exists (fun x => ~ finite x)) M.

Definition identity3 : matrix :=
  [[Fin 1; Fin 0; Fin 0]; [Fin 0; Fin 1; Fin 0]; [Fin 0; Fin 0; Fin 1]].

(** The squared length of a real 3-vector, summed as [np.dot] sums it. *)
Definition sq3 (a1 a2 a3 : R) : R := 0 + a1 * a1 + a2 * a2 + a3 * a3.


(** What the specification says of coincident clipping planes: a matrix
    with non-finite entries is returned by both builders. *)
Definition degenerate_returns_nonfinite (l r b t n : float) : Prop :=
  (exists M, orthoProjectionMatrix l r b t n n = Ok M /\ has_nonfinite M) /\
  (exists M, perspectiveProjectionMatrix l r b t n n = Ok M /\ has_nonfinite M).

(** Lengths that broadcast against each other, and the resulting length. *)
Definition compatible (m n k : nat) : Prop :=
  (m = n /\ k = m) \/ (m = 1%nat /\ k = n) \/ (n = 1%nat /\ k = m).

(** The exceptions numpy raises on operands of the wrong shape. *)
Definition shape_error (e : exn) : Prop := e = ValueError \/ e = TypeError.

(** Argument lengths that numpy rejects in [lookAt] and in
    [generalPerspectiveProjection]. *)
Definition malformed_lookAt (eye center up : list float) : Prop :=
  (~ In (length eye) [1; 3] \/ ~ In (length center) [1; 3] \/
   ~ In (length up) [2; 3])%nat.

Definition malformed_screen (bl br tl eye : list float) : Prop :=
  (~ In (length bl) [1; 3] \/ ~ In (length br) [1; 3] \/
   ~ In (length tl) [1; 3] \/ ~ In (length eye) [1; 3])%nat.

(** What the specification says of an argument that does not have three
    components: the call raises. *)
Definition rejects_malformed_lookAt (eye center up : list float) : Prop :=
  (length eye <> 3 \/ length center <> 3 \/ length up <> 3)%nat ->
  raises (lookAt eye center up).

(** Four rows of four entries. *)
Definition is4x4 (M : matrix) : Prop :=
  length M = 4%nat /\ Forall (fun row => length row = 4%nat) M.

(** The argument lengths with which [lookAt] returns. *)
Definition lookAt_lengths (eye center up : list float) : Prop :=
  ((length eye = 1 \/ length eye = 3) /\
   (length center = 1 \/ length center = 3) /\
   (length eye = 3 \/ length center = 3) /\
   (length up = 2 \/ length up = 3))%nat.

(** * Properties *)

(** ** Evaluation lemmas

    On finite operands with a non-zero divisor both divisions are the
    division of the reals. *)

Lemma Rzero_true (r : R) : r = 0 -> Rzero r = true.
Proof.
  intros H. unfold Rzero. destruct (Req_dec_T r 0); [reflexivity | contradiction].
Qed.

Lemma Rzero_false (r : R) : r <> 0 -> Rzero r = false.
Proof.
  intros H. unfold Rzero. destruct (Req_dec_T r 0); [contradiction | reflexivity].
Qed.

Lemma fdiv_fin (a b : R) : b <> 0 -> fdiv (Fin a) (Fin b) = Fin (a / b).
Proof. intros H. unfold fdiv. now rewrite (Rzero_false H). Qed.

Lemma fdiv_zero_zero (a b : R) : a = 0 -> b = 0 -> fdiv (Fin a) (Fin b) = NaN.
Proof. intros Ha Hb. unfold fdiv. now rewrite (Rzero_true Hb), (Rzero_true Ha). Qed.

Lemma truediv_fin (a b : R) : b <> 0 -> truediv (Fin a) (Fin b) = Ok (Fin (a / b)).
Proof. intros H. unfold truediv. now rewrite (Rzero_false H), (fdiv_fin _ H). Qed.

Lemma truediv_zero (x : float) (b : R) :
  b = 0 -> truediv x (Fin b) = Raise ZeroDivisionError.
Proof. intros H. unfold truediv. now rewrite (Rzero_true H). Qed.

Lemma truediv_cases (x y : float) :
  truediv x y = Raise ZeroDivisionError \/ truediv x y = Ok (fdiv x y).
Proof.
  unfold truediv. destruct y; auto. destruct (Rzero r); auto.
Qed.

Lemma fsqrt_fin (a : R) : 0 <= a -> fsqrt (Fin a) = Fin (sqrt a).
Proof.
  intros H. unfold fsqrt. destruct (Rlt_dec a 0); [lra | reflexivity].
Qed.

Lemma fsqrt_square (a b : R) : 0 <= b -> a = b * b -> fsqrt (Fin a) = Fin b.
Proof.
  intros Hb ->. rewrite fsqrt_fin by nra. now rewrite sqrt_square.
Qed.

Lemma bind_Ok {A B : Type} (m : result A) (k : A -> result B) (b : B) :
  bind m k = Ok b -> exists a, m = Ok a /\ k a = Ok b.
Proof. destruct m; simpl; intros H; [eauto | discriminate]. Qed.

Arguments fsum l /.
Arguments np.linalg.norm a /.
Arguments fdiv : simpl never.
Arguments truediv : simpl never.
Arguments fsqrt : simpl never.

(** Divisions and square roots of finite values whose side condition is
    linear. *)
Ltac fl_div :=
  repeat match goal with
    | |- context [truediv (Fin ?a) (Fin ?b)] =>
        rewrite (@truediv_fin a b) by lra
    | |- context [truediv ?x (Fin ?b)] =>
        rewrite (@truediv_zero x b) by lra
    | |- context [fdiv (Fin ?a) (Fin ?b)] =>
        rewrite (@fdiv_fin a b) by lra
    end.

Ltac fl_eval := repeat (progress (simpl; fl_div)).

(** Equality of lists of finite values, component by component. *)
Ltac fin_eq :=
  repeat match goal with
         | |- _ :: _ = _ :: _ => f_equal
         | |- Fin _ = Fin _ => apply f_equal; first [lra | field; lra]
         | |- Ok _ = Ok _ => apply f_equal
         | |- np.Vector _ = np.Vector _ => apply f_equal
         | |- mkFrustum _ _ _ _ _ _ = mkFrustum _ _ _ _ _ _ => f_equal
         | |- mkOffAxis _ _ _ _ = mkOffAxis _ _ _ _ => f_equal
         end; try reflexivity.

(** A square root whose value [b] is known. *)
Ltac fl_sqrt b :=
  match goal with
  | |- context [fsqrt (Fin ?a)] => rewrite (@fsqrt_square a b) by lra
  end; fl_eval.

(** The same when the side conditions are equations of a field. *)
Ltac fl_sqrt_field b :=
  match goal with
  | |- context [fsqrt (Fin ?a)] =>
      rewrite (@fsqrt_square a b) by (try lra; field; lra)
  end; fl_eval.

(** A numpy division whose divisor is the real [d]. *)
Ltac fl_div_as d :=
  match goal with
  | |- context [fdiv (Fin ?a) (Fin ?b)] =>
      replace b with d by (field; lra); rewrite (@fdiv_fin a d) by lra
  end; fl_eval.

(** ** Projection matrices *)




(** [orthoProjectionMatrix] on the symmetric frustum of the specification:
    [(-1, -1, -1)] goes to [(-1, -1, *, 1)]. *)
Lemma ortho_symmetric_unit :
  exists M z,
    orthoProjectionMatrix (-1) 1 (-1) 1 1 10 = Ok M /\
    premultiply [Fin (-1); Fin (-1); Fin (-1); Fin 1] M
      = [Fin (-1); Fin (-1); z; Fin 1].
Proof.
  unfold orthoProjectionMatrix. fl_eval.
  eexists. eexists. split; [reflexivity|].
  unfold premultiply. simpl. fin_eq.
Qed.

(** C2, at a frustum that is not symmetric about the view axis,
    [(l, r, b, t, n, f) = (0, 2, 0, 2, 1, 10)]: [orthoProjectionMatrix]
    returns a matrix that sends the corner [(l, b, -n)] to [x = y = 1], not
    to [(-1, -1)], and the corner [(r, t, -n)] to [x = y = 3], not to
    [(1, 1)]: the translation terms are stored with a positive sign. *)
Theorem ortho_asymmetric_corners :
  exists M,
    orthoProjectionMatrix 0 2 0 2 1 10 = Ok M /\
    premultiply [Fin 0; Fin 0; Fin (-1); Fin 1] M
      = [Fin 1; Fin 1; Fin (13 / 9); Fin 1] /\
    premultiply [Fin 2; Fin 2; Fin (-1); Fin 1] M
      = [Fin 3; Fin 3; Fin (13 / 9); Fin 1].
Proof.
  unfold orthoProjectionMatrix. fl_eval.
  eexists. split; [reflexivity|].
  unfold premultiply. simpl. split; fin_eq.
Qed.

(** Where the corners of the near plane go in general, in exact
    arithmetic: to [(3 l + r) / (r - l)] and [(3 r + l) / (r - l)], which
    are [-1] and [1] exactly when [l = - r]. *)
Lemma ortho_corner_x (l r b t n f : R) :
  r <> l -> t <> b -> f <> n ->
  exists M,
    orthoProjectionMatrix l r b t n f = Ok M /\
    nth 0 (premultiply [Fin l; Fin b; Fin (- n); Fin 1] M) NaN
      = Fin ((3 * l + r) / (r - l)) /\
    nth 0 (premultiply [Fin r; Fin t; Fin (- n); Fin 1] M) NaN
      = Fin ((3 * r + l) / (r - l)).
Proof.
  intros Hrl Htb Hfn. unfold orthoProjectionMatrix. fl_eval.
  eexists. split; [reflexivity|].
  unfold premultiply. simpl. split; fin_eq.
Qed.

(** C7: with [r <> l], [t <> b], [f <> n], element [[2][3]] of the
    perspective matrix is [-1]; in the orthographic matrix that element is
    [0] and element [[3][3]] is [1]. *)
Theorem divide_element (l r b t n f : R) :
  r <> l -> t <> b -> f <> n ->
  (exists P, perspectiveProjectionMatrix l r b t n f = Ok P /\
             getitem P 2 3 = Fin (-1)) /\
  (exists O, orthoProjectionMatrix l r b t n f = Ok O /\
             getitem O 2 3 = Fin 0 /\ getitem O 3 3 = Fin 1).
Proof.
  intros Hrl Htb Hfn. split.
  - unfold perspectiveProjectionMatrix. fl_eval.
    eexists. split; [reflexivity|]. unfold getitem. simpl. fin_eq.
  - unfold orthoProjectionMatrix. fl_eval.
    eexists. split; [reflexivity|]. unfold getitem. simpl. split; fin_eq.
Qed.

(** On the frustum [(-1, 1, -1, 1, 1, 10)]. *)
Lemma divide_element_unit :
  1 <> -1 /\ 1 <> -1 /\ 10 <> 1 /\
  (exists P, perspectiveProjectionMatrix (-1) 1 (-1) 1 1 10 = Ok P /\
             getitem P 2 3 = Fin (-1)) /\
  (exists O, orthoProjectionMatrix (-1) 1 (-1) 1 1 10 = Ok O /\
             getitem O 2 3 = Fin 0 /\ getitem O 3 3 = Fin 1).
Proof.
  split; [lra|]. split; [lra|]. split; [lra|].
  apply (@divide_element (-1) 1 (-1) 1 1 10); lra.
Defined.

(** C6 as stated fails: on Python floats neither builder returns. *)
Lemma degenerate_unit_no_matrix :
  ~ degenerate_returns_nonfinite (Fin (-1)) (Fin 1) (Fin (-1)) (Fin 1) (Fin 1).
Proof.
  intros [(M & HM & _) _]. revert HM.
  unfold orthoProjectionMatrix. fl_eval. discriminate.
Qed.

(** C6, as amended: called on Python floats with [near == far] (finite),
    [orthoProjectionMatrix] and [perspectiveProjectionMatrix] both raise
    [ZeroDivisionError], whatever the other four arguments are; no matrix
    is returned. *)
Theorem degenerate_raises (l r b t : float) (n : R) :
  orthoProjectionMatrix l r b t n n = Raise ZeroDivisionError /\
  perspectiveProjectionMatrix l r b t n n = Raise ZeroDivisionError.
Proof.
  assert (Hn : forall x, truediv x (Fin n - Fin n)%fl = Raise ZeroDivisionError).
  { intros x. simpl. apply truediv_zero. lra. }
  split.
  - unfold orthoProjectionMatrix.
    destruct (truediv_cases (Fin 2) (r - l)%fl) as [-> | ->]; [reflexivity|].
    destruct (truediv_cases (Fin 2) (t - b)%fl) as [-> | ->]; [reflexivity|].
    simpl. now rewrite Hn.
  - unfold perspectiveProjectionMatrix.
    destruct (truediv_cases (Fin 2 * n)%fl (r - l)%fl) as [-> | ->]; [reflexivity|].
    destruct (truediv_cases (Fin 2 * n)%fl (t - b)%fl) as [-> | ->]; [reflexivity|].
    destruct (truediv_cases (r + l)%fl (r - l)%fl) as [-> | ->]; [reflexivity|].
    destruct (truediv_cases (t + b)%fl (t - b)%fl) as [-> | ->]; [reflexivity|].
    simpl. now rewrite Hn.
Qed.

(** ** [computeFrustum] *)






(** ** [lookAt] *)

(** C8: [lookAt(eyePos=(0,0,5), centerPos=(0,0,0), upVec=(0,1,0))] has
    the identity as rotation block and [(0, 0, -5)] as translation. *)
Theorem lookAt_aligned :
  exists M,
    lookAt [Fin 0; Fin 0; Fin 5] [Fin 0; Fin 0; Fin 0] [Fin 0; Fin 1; Fin 0]
      = Ok M /\
    block3 M = identity3 /\
    translation M = [Fin 0; Fin 0; Fin (-5)].
Proof.
  unfold lookAt. fl_eval. fl_sqrt 5. fl_sqrt 1. fl_sqrt 1.
  eexists. split; [reflexivity|].
  unfold block3, translation, identity3. simpl. split; fin_eq.
Qed.

(** C4, at [eyePos = (0,0,0)], [centerPos = (0,0,-1)], [upVec = (0,3,4)]
    (the up vector is not parallel to the viewing direction, and not
    perpendicular to it either): the first column of the rotation block,
    [s], is [(3/5, 0, 0)], of squared length [9/25]; the block is not
    orthonormal.  The source normalises [s] inside the cross product that
    gives [u] and stores the unnormalised [s]. *)
Theorem lookAt_side_not_unit :
  exists M,
    lookAt [Fin 0; Fin 0; Fin 0] [Fin 0; Fin 0; Fin (-1)] [Fin 0; Fin 3; Fin 4]
      = Ok M /\
    block3 M = [[Fin (3 / 5); Fin 0; Fin 0];
                [Fin 0; Fin 1; Fin 0];
                [Fin 0; Fin 0; Fin 1]] /\
    dot3 (column3 M 0) (column3 M 0) = Fin (9 / 25).
Proof.
  unfold lookAt. fl_eval. fl_sqrt 1. fl_sqrt 5. fl_sqrt (3 / 5).
  eexists. split; [reflexivity|].
  unfold block3, dot3, column3. simpl. split; fin_eq.
Qed.

(** *** The camera basis in exact arithmetic *)

Lemma sq3_nonneg a1 a2 a3 : 0 <= sq3 a1 a2 a3.
Proof. unfold sq3. nra. Qed.

Lemma sq3_zero a1 a2 a3 : sq3 a1 a2 a3 = 0 -> a1 = 0 /\ a2 = 0 /\ a3 = 0.
Proof. unfold sq3. intros H. repeat split; nra. Qed.

Lemma norm3_sqr a1 a2 a3 : sqrt (sq3 a1 a2 a3) * sqrt (sq3 a1 a2 a3) = sq3 a1 a2 a3.
Proof. apply sqrt_sqrt, sq3_nonneg. Qed.

Lemma norm3_nonzero a1 a2 a3 :
  ~ (a1 = 0 /\ a2 = 0 /\ a3 = 0) -> sqrt (sq3 a1 a2 a3) <> 0.
Proof.
  intros H E. apply H, sq3_zero.
  rewrite <- (norm3_sqr a1 a2 a3), E. ring.
Qed.

(** The algebra of the camera basis: [f] and [w] are the normalised
    viewing direction and up vector, [s = f x w], [n] is the length of [s]
    and [v = (s / n) x f]. *)
Section Basis.
Variables f1 f2 f3 w1 w2 w3 n : R.
Let s1 := f2 * w3 - f3 * w2.
Let s2 := f3 * w1 - f1 * w3.
Let s3 := f1 * w2 - f2 * w1.
Let v1 := s2 / n * f3 - s3 / n * f2.
Let v2 := s3 / n * f1 - s1 / n * f3.
Let v3 := s1 / n * f2 - s2 / n * f1.
Hypothesis Hf : sq3 f1 f2 f3 = 1.
Hypothesis Hw : sq3 w1 w2 w3 = 1.
Hypothesis Hn : n * n = sq3 s1 s2 s3.
Hypothesis Hn0 : n <> 0.

Lemma side_forward : 0 + s1 * - f1 + s2 * - f2 + s3 * - f3 = 0.
Proof. unfold s1, s2, s3. ring. Qed.

Lemma side_up : 0 + s1 * v1 + s2 * v2 + s3 * v3 = 0.
Proof. unfold v1, v2, v3. field. exact Hn0. Qed.

Lemma up_forward : 0 + v1 * - f1 + v2 * - f2 + v3 * - f3 = 0.
Proof. unfold v1, v2, v3. field. exact Hn0. Qed.

Lemma forward_unit : 0 + - f1 * - f1 + - f2 * - f2 + - f3 * - f3 = 1.
Proof. unfold sq3 in Hf. lra. Qed.

Lemma up_unit : 0 + v1 * v1 + v2 * v2 + v3 * v3 = 1.
Proof.
  assert (L : (0 + v1 * v1 + v2 * v2 + v3 * v3) * (n * n)
              = sq3 s1 s2 s3 * sq3 f1 f2 f3
                - (s1 * f1 + s2 * f2 + s3 * f3) * (s1 * f1 + s2 * f2 + s3 * f3)).
  { unfold v1, v2, v3, sq3. field. exact Hn0. }
  assert (Z : s1 * f1 + s2 * f2 + s3 * f3 = 0) by (unfold s1, s2, s3; ring).
  rewrite Z, Hf, <- Hn in L.
  apply (Rmult_eq_reg_r (n * n)); [lra | nra].
Qed.

Lemma side_length :
  0 + s1 * s1 + s2 * s2 + s3 * s3
  = 1 - (f1 * w1 + f2 * w2 + f3 * w3) * (f1 * w1 + f2 * w2 + f3 * w3).
Proof.
  replace 1 with (sq3 f1 f2 f3 * sq3 w1 w2 w3) by (rewrite Hf, Hw; ring).
  unfold s1, s2, s3, sq3. ring.
Qed.
End Basis.

Lemma normalized_unit a1 a2 a3 :
  ~ (a1 = 0 /\ a2 = 0 /\ a3 = 0) ->
  sq3 (a1 / sqrt (sq3 a1 a2 a3)) (a2 / sqrt (sq3 a1 a2 a3))
      (a3 / sqrt (sq3 a1 a2 a3)) = 1.
Proof.
  intros H. pose proof (norm3_nonzero H) as Hn.
  pose proof (norm3_sqr a1 a2 a3) as Hs.
  set (n := sqrt (sq3 a1 a2 a3)) in *.
  replace (sq3 (a1 / n) (a2 / n) (a3 / n)) with (sq3 a1 a2 a3 / (n * n))
    by (unfold sq3; field; exact Hn).
  rewrite <- Hs. field. exact Hn.
Qed.

Lemma fsqrt_sq3 a1 a2 a3 :
  fsqrt (Fin (0 + a1 * a1 + a2 * a2 + a3 * a3)) = Fin (sqrt (sq3 a1 a2 a3)).
Proof. apply fsqrt_fin. apply sq3_nonneg. Qed.

(** What holds of the rotation block, in exact arithmetic, for every up
    vector that is not parallel to the viewing direction: the columns are
    mutually perpendicular, [u] and [-f] have length 1, the squared length
    of [s] is [1 - cos^2] of the angle between viewing direction and up
    vector, and the translation row is [-eyePos] carried through the block
    (translation, then rotation). *)
Lemma lookAt_basis (e1 e2 e3 c1 c2 c3 u1 u2 u3 : R) :
  let F1 := c1 - e1 in
  let F2 := c2 - e2 in
  let F3 := c3 - e3 in
  let nF := sqrt (sq3 F1 F2 F3) in
  let nU := sqrt (sq3 u1 u2 u3) in
  let cosine := (F1 * u1 + F2 * u2 + F3 * u3) / (nF * nU) in
  ~ (F2 * u3 - F3 * u2 = 0 /\ F3 * u1 - F1 * u3 = 0 /\ F1 * u2 - F2 * u1 = 0) ->
  exists M,
    lookAt [Fin e1; Fin e2; Fin e3] [Fin c1; Fin c2; Fin c3]
      [Fin u1; Fin u2; Fin u3] = Ok M /\
    dot3 (column3 M 0) (column3 M 1) = Fin 0 /\
    dot3 (column3 M 0) (column3 M 2) = Fin 0 /\
    dot3 (column3 M 1) (column3 M 2) = Fin 0 /\
    dot3 (column3 M 1) (column3 M 1) = Fin 1 /\
    dot3 (column3 M 2) (column3 M 2) = Fin 1 /\
    dot3 (column3 M 0) (column3 M 0) = Fin (1 - cosine * cosine) /\
    translation M
      = map (fun j => dot3 [Fin (- e1); Fin (- e2); Fin (- e3)] (column3 M j))
            [0; 1; 2]%nat.
Proof.
  intros F1 F2 F3 nF nU cosine Hx.
  assert (HF : ~ (F1 = 0 /\ F2 = 0 /\ F3 = 0)).
  { intros (E1 & E2 & E3). apply Hx. rewrite E1, E2, E3. repeat split; ring. }
  assert (HU : ~ (u1 = 0 /\ u2 = 0 /\ u3 = 0)).
  { intros (E1 & E2 & E3). apply Hx. rewrite E1, E2, E3. repeat split; ring. }
  pose proof (norm3_nonzero HF) as HnF. fold nF in HnF.
  pose proof (norm3_nonzero HU) as HnU. fold nU in HnU.
  pose proof (normalized_unit HF) as Hf. fold nF in Hf.
  pose proof (normalized_unit HU) as Hw. fold nU in Hw.
  set (f1 := F1 / nF) in *. set (f2 := F2 / nF) in *. set (f3 := F3 / nF) in *.
  set (w1 := u1 / nU) in *. set (w2 := u2 / nU) in *. set (w3 := u3 / nU) in *.
  set (s1 := f2 * w3 - f3 * w2). set (s2 := f3 * w1 - f1 * w3).
  set (s3 := f1 * w2 - f2 * w1).
  assert (HS : ~ (s1 = 0 /\ s2 = 0 /\ s3 = 0)).
  { intros (E1 & E2 & E3). apply Hx. repeat split.
    - replace (F2 * u3 - F3 * u2) with (s1 * (nF * nU))
        by (unfold s1, f2, f3, w2, w3; field; auto). rewrite E1. ring.
    - replace (F3 * u1 - F1 * u3) with (s2 * (nF * nU))
        by (unfold s2, f1, f3, w1, w3; field; auto). rewrite E2. ring.
    - replace (F1 * u2 - F2 * u1) with (s3 * (nF * nU))
        by (unfold s3, f1, f2, w1, w2; field; auto). rewrite E3. ring. }
  pose proof (norm3_nonzero HS) as HnS.
  pose proof (norm3_sqr s1 s2 s3) as HsS.
  set (nS := sqrt (sq3 s1 s2 s3)) in *.
  unfold lookAt. simpl.
  fold F1 F2 F3. rewrite !fsqrt_sq3. fold nF nU.
  rewrite !(@fdiv_fin _ nF) by exact HnF. rewrite !(@fdiv_fin _ nU) by exact HnU.
  fold f1 f2 f3 w1 w2 w3. simpl. fold s1 s2 s3.
  rewrite !fsqrt_sq3. fold nS. rewrite !(@fdiv_fin _ nS) by exact HnS.
  simpl.
  eexists. split; [reflexivity|].
  unfold dot3, column3, translation. simpl.
  repeat split; try apply f_equal.
  - refine (eq_trans _ (@side_up f1 f2 f3 w1 w2 w3 nS HnS)).
    unfold s1, s2, s3. field. exact HnS.
  - refine (eq_trans _ (@side_forward f1 f2 f3 w1 w2 w3)). unfold s1, s2, s3. ring.
  - refine (eq_trans _ (@up_forward f1 f2 f3 w1 w2 w3 nS HnS)).
    unfold s1, s2, s3. field. exact HnS.
  - refine (eq_trans _ (@up_unit f1 f2 f3 w1 w2 w3 nS Hf HsS HnS)).
    unfold s1, s2, s3. field. exact HnS.
  - refine (eq_trans _ (@forward_unit f1 f2 f3 Hf)). ring.
  - replace cosine with (f1 * w1 + f2 * w2 + f3 * w3)
      by (unfold cosine, f1, f2, f3, w1, w2, w3; field; auto).
    refine (eq_trans _ (@side_length f1 f2 f3 w1 w2 w3 Hf Hw)). unfold s1, s2, s3. ring.
  - fin_eq; ring.
Qed.

(** ** [generalPerspectiveProjection] against [computeFrustum] *)

(** C3, at a screen of width 2 and height 2 centred on the view axis at
    distance 2 from the eye, perpendicular to it, with [nearClip = 1]:
    [generalPerspectiveProjection] feeds the bounds
    [(-1/2, 1/2, -1/2, 1/2)] to [perspectiveProjectionMatrix], while
    [computeFrustum(2, 1, 2, 0, 0, 1, 10)] returns [(-2, 2, -2, 2)]. *)
Theorem centered_screen_bounds :
  exists o P V,
    offAxisFrustum [Fin (-1); Fin (-1); Fin (-2)] [Fin 1; Fin (-1); Fin (-2)]
      [Fin (-1); Fin 1; Fin (-2)] [Fin 0; Fin 0; Fin 0] 1 10 = Ok o /\
    bounds o
      = mkFrustum (Fin (-1 / 2)) (Fin (1 / 2)) (Fin (-1 / 2)) (Fin (1 / 2)) 1 10 /\
    generalPerspectiveProjection
      [Fin (-1); Fin (-1); Fin (-2)] [Fin 1; Fin (-1); Fin (-2)]
      [Fin (-1); Fin 1; Fin (-2)] [Fin 0; Fin 0; Fin 0] 1 10 = Ok (P, V) /\
    perspectiveProjectionMatrix
      (Fin (-1 / 2)) (Fin (1 / 2)) (Fin (-1 / 2)) (Fin (1 / 2)) 1 10 = Ok P /\
    computeFrustum 2 1 2 0 0 1 10
      = Ok (mkFrustum (Fin (-2)) (Fin 2) (Fin (-2)) (Fin 2) 1 10).
Proof.
  assert (E : offAxisFrustum
                [Fin (-1); Fin (-1); Fin (-2)] [Fin 1; Fin (-1); Fin (-2)]
                [Fin (-1); Fin 1; Fin (-2)] [Fin 0; Fin 0; Fin 0] 1 10
              = Ok (mkOffAxis
                      (np.Vector [Fin 1; Fin 0; Fin 0])
                      (np.Vector [Fin 0; Fin 1; Fin 0])
                      (np.Vector [Fin 0; Fin 0; Fin 1])
                      (mkFrustum (Fin (-1 / 2)) (Fin (1 / 2))
                                 (Fin (-1 / 2)) (Fin (1 / 2)) 1 10))).
  { unfold offAxisFrustum. fl_eval. fl_sqrt 2. fl_sqrt 2. fl_sqrt 1. fin_eq. }
  unfold generalPerspectiveProjection. rewrite E.
  cbn [bind bounds left right top bottom].
  unfold perspectiveProjectionMatrix. fl_eval.
  eexists. eexists. eexists.
  repeat (split; [reflexivity|]).
  unfold computeFrustum. fl_eval. fin_eq.
Qed.

(** The two derivations, in exact arithmetic, on every axis-aligned screen
    of width [W] and height [H] centred at distance [D] in front of the
    eye: the bounds of [generalPerspectiveProjection] are half the screen
    size scaled by [n / D], those of [computeFrustum] are the full screen
    size scaled by [n]: the former are the latter divided by [2 D]. *)
Lemma centered_screen_general (W H D n f : R) :
  0 < W -> 0 < H -> 0 < D ->
  (exists o,
     offAxisFrustum [Fin (- W / 2); Fin (- H / 2); Fin (- D)]
       [Fin (W / 2); Fin (- H / 2); Fin (- D)]
       [Fin (- W / 2); Fin (H / 2); Fin (- D)]
       [Fin 0; Fin 0; Fin 0] n f = Ok o /\
     bounds o = mkFrustum (Fin (- (W / 2 * n / D))) (Fin (W / 2 * n / D))
                          (Fin (- (H / 2 * n / D))) (Fin (H / 2 * n / D)) n f) /\
  computeFrustum W (Fin (W / H)) D 0 0 n f
    = Ok (mkFrustum (Fin (- (W * n))) (Fin (W * n))
                    (Fin (- (H * n))) (Fin (H * n)) n f).
Proof.
  intros HW HH HD. split.
  - unfold offAxisFrustum. fl_eval.
    fl_sqrt_field W. fl_sqrt_field H. fl_sqrt_field 1.
    fl_div_as D.
    eexists. split; [reflexivity|]. simpl. fin_eq.
  - unfold computeFrustum. fl_eval.
    assert (HA : W / H <> 0).
    { apply Rmult_integral_contrapositive_currified; [lra|].
      apply Rinv_neq_0_compat. lra. }
    rewrite (truediv_fin W HA). simpl. fin_eq.
Qed.

(** ** Shapes

    The source checks no shape.  What numpy accepts and rejects is read off
    the array operations: the lengths of the operands of a subtraction must
    broadcast, those of [np.cross] must be 2 or 3, those of [np.dot] must
    agree, and a slice of three elements takes 1 or 3 values. *)

Lemma map2_length {A B C : Type} (f : A -> B -> C) (l : list A) (l' : list B) :
  length (map2 f l l') = Nat.min (length l) (length l').
Proof.
  revert l'. induction l as [|a l IH]; intros [|b l']; simpl; auto.
Qed.

Lemma broadcast_Vector_Ok op xs ys r :
  np.broadcast op (np.Vector xs) (np.Vector ys) = Ok r ->
  exists zs, r = np.Vector zs /\ compatible (length xs) (length ys) (length zs).
Proof.
  unfold np.broadcast, compatible.
  destruct (Nat.eqb_spec (length xs) (length ys)) as [E|E].
  - intros H. injection H as <-. eexists. split; [reflexivity|].
    rewrite map2_length, E, Nat.min_id. auto.
  - destruct xs as [|x [|x' xs]]; destruct ys as [|y [|y' ys]];
      intros H; try discriminate; injection H as <-;
      eexists; (split; [reflexivity|]); simpl in *; rewrite ?length_map; lia.
Qed.

Lemma broadcast_Raise op a b e :
  np.broadcast op a b = Raise e -> e = ValueError.
Proof.
  unfold np.broadcast. destruct a as [x|xs], b as [y|ys]; try discriminate.
  destruct (length xs =? length ys)%nat; try discriminate.
  destruct xs as [|x [|x' xs]]; destruct ys as [|y [|y' ys]];
    intros H; try discriminate; now injection H.
Qed.

Lemma cross_Ok a b r :
  np.cross a b = Ok r ->
  exists xs ys,
    a = np.Vector xs /\ b = np.Vector ys /\
    (length xs = 2 \/ length xs = 3)%nat /\
    (length ys = 2 \/ length ys = 3)%nat /\
    match r with
    | np.Scalar _ => (length xs = 2 /\ length ys = 2)%nat
    | np.Vector zs => (length zs = 3 /\ (length xs = 3 \/ length ys = 3))%nat
    end.
Proof.
  destruct a as [x|xs], b as [y|ys]; simpl; try discriminate.
  - destruct xs as [|a0 [|a1 [|a2 [|a3 xs]]]]; discriminate.
  - destruct xs as [|a0 [|a1 [|a2 [|a3 xs]]]];
      destruct ys as [|b0 [|b1 [|b2 [|b3 ys]]]];
      intros H; try discriminate; injection H as <-;
      eexists; eexists; simpl; repeat split; auto.
Qed.

Lemma cross_Raise a b e : np.cross a b = Raise e -> e = ValueError.
Proof.
  destruct a as [x|xs], b as [y|ys]; simpl.
  1-2: intros H; now injection H.
  - destruct xs as [|a0 [|a1 [|a2 [|a3 xs]]]]; intros H; now injection H.
  - destruct xs as [|a0 [|a1 [|a2 [|a3 xs]]]];
      destruct ys as [|b0 [|b1 [|b2 [|b3 ys]]]];
      intros H; try discriminate; now injection H.
Qed.

Lemma broadcast3_Vector_Ok xs v :
  broadcast3 (np.Vector xs) = Ok v -> (length xs = 1 \/ length xs = 3)%nat.
Proof.
  destruct xs as [|a0 [|a1 [|a2 [|a3 xs]]]]; simpl; intros H;
    try discriminate; auto.
Qed.

Lemma broadcast3_Raise a e : broadcast3 a = Raise e -> e = ValueError.
Proof.
  destruct a as [x|xs]; simpl; try discriminate.
  destruct xs as [|a0 [|a1 [|a2 [|a3 xs]]]]; intros H;
    try discriminate; now injection H.
Qed.

Lemma setcol3_Ok M j a M' :
  setcol3 M j a = Ok M' -> exists v, broadcast3 a = Ok v.
Proof.
  unfold setcol3. intros H. apply bind_Ok in H as (v & Hv & _). eauto.
Qed.

Lemma setrow3_Ok M i a M' :
  setrow3 M i a = Ok M' -> exists v, broadcast3 a = Ok v.
Proof.
  unfold setrow3. intros H. apply bind_Ok in H as (v & Hv & _). eauto.
Qed.

Tactic Notation "bind_inv" hyp(H) "as" ident(x) ident(E) :=
  apply bind_Ok in H; destruct H as (x & E & H).

Lemma lookAt_Ok_lengths eye center up M :
  lookAt eye center up = Ok M ->
  ((length eye = 1 \/ length eye = 3) /\
   (length center = 1 \/ length center = 3) /\
   (length eye = 3 \/ length center = 3) /\
   (length up = 2 \/ length up = 3))%nat.
Proof.
  unfold lookAt, np.asarray. intros H.
  bind_inv H as f Ef. apply broadcast_Vector_Ok in Ef as (fs & -> & Hf).
  bind_inv H as s Es. apply cross_Ok in Es as (xs & ys & Hxs & Hys & Hlf & Hlu & _).
  injection Hxs as <-. injection Hys as <-. rewrite length_map in Hlf, Hlu.
  bind_inv H as u Eu.
  bind_inv H as R0 E0.
  bind_inv H as R1 E1.
  bind_inv H as R2 E2. apply setcol3_Ok in E2 as (v & E2).
  apply broadcast3_Vector_Ok in E2. rewrite !length_map in E2.
  bind_inv H as R3 E3.
  bind_inv H as T E4. apply setrow3_Ok in E4 as (v' & E4).
  apply broadcast3_Vector_Ok in E4. rewrite length_map in E4.
  unfold compatible in Hf. lia.
Qed.

Lemma bind_assoc {A B C : Type} (m : result A) (f : A -> result B)
    (g : B -> result C) :
  bind (bind m f) g = bind m (fun x => bind (f x) g).
Proof. now destruct m. Qed.

(** One statement of a function that raises [e]: either it is this
    statement that raises, and [lem] tells the exception, or it returns. *)
Ltac step_raise lem :=
  match goal with
  | |- bind ?m _ = Raise _ -> _ =>
      let E := fresh "E" in
      let H := fresh "H" in
      destruct m eqn:E;
      [ clear E; cbn [bind]
      | cbn [bind]; intros H; injection H as <-; revert E; apply lem ]
  end.

Lemma lookAt_Raise eye center up e :
  lookAt eye center up = Raise e -> e = ValueError.
Proof.
  unfold lookAt, np.asarray.
  step_raise broadcast_Raise.
  step_raise cross_Raise.
  step_raise cross_Raise.
  unfold setcol3, setrow3.
  do 4 (rewrite bind_assoc; step_raise broadcast3_Raise;
        cbn -[broadcast3 np.matmul]).
  discriminate.
Qed.

Lemma lookAt_returns eye center up :
  ((length eye = 1 \/ length eye = 3) /\
   (length center = 1 \/ length center = 3) /\
   (length eye = 3 \/ length center = 3) /\
   (length up = 2 \/ length up = 3))%nat -> returns (lookAt eye center up).
Proof.
  intros (He & Hc & Hec & Hu).
  destruct eye as [|e0 [|e1 [|e2 [|e3 eye]]]]; simpl in He, Hec; try lia;
  destruct center as [|c0 [|c1 [|c2 [|c3 center]]]]; simpl in Hc, Hec; try lia;
  destruct up as [|u0 [|u1 [|u2 [|u3 up]]]]; simpl in Hu; try lia;
  unfold returns, lookAt; simpl; eexists; reflexivity.
Qed.

Lemma dot_Vector_Ok xs ys r :
  np.dot (np.Vector xs) (np.Vector ys) = Ok r ->
  length xs = length ys /\ exists x, r = np.Scalar x.
Proof.
  unfold np.dot. destruct (Nat.eqb_spec (length xs) (length ys));
    intros H; [injection H as <-; eauto | discriminate].
Qed.

Lemma dot_Raise a b e : np.dot a b = Raise e -> e = ValueError.
Proof.
  unfold np.dot, np.multiply.
  destruct a as [x|xs], b as [y|ys]; try apply broadcast_Raise.
  destruct (length xs =? length ys)%nat; [discriminate | intros H; now injection H].
Qed.

Lemma to_float_Vector_Ok xs x :
  to_float (np.Vector xs) = Ok x -> length xs = 1%nat.
Proof.
  destruct xs as [|a0 [|a1 xs]]; simpl; intros H; try discriminate; auto.
Qed.

Lemma to_float_Raise a e : to_float a = Raise e -> e = TypeError.
Proof.
  destruct a as [x|xs]; simpl; try discriminate.
  destruct xs as [|a0 [|a1 xs]]; intros H; try discriminate; now injection H.
Qed.

Lemma offAxisFrustum_Ok_lengths bl br tl eye near far o :
  offAxisFrustum bl br tl eye near far = Ok o ->
  ((length bl = 1 \/ length bl = 3) /\ (length br = 1 \/ length br = 3) /\
   (length tl = 1 \/ length tl = 3) /\ (length eye = 1 \/ length eye = 3))%nat.
Proof.
  unfold offAxisFrustum, np.asarray. intros H.
  bind_inv H as vr0 Er. apply broadcast_Vector_Ok in Er as (rs & -> & Hr).
  bind_inv H as vu0 Eu. apply broadcast_Vector_Ok in Eu as (us & -> & Hu).
  bind_inv H as vn0 En.
  apply cross_Ok in En as (xs & ys & Hxs & Hys & Hlr & Hlu & Hn).
  injection Hxs as <-. injection Hys as <-. rewrite length_map in Hlr, Hlu, Hn.
  bind_inv H as va Ea. apply broadcast_Vector_Ok in Ea as (a & -> & Ha).
  bind_inv H as vb Eb. apply broadcast_Vector_Ok in Eb as (b & -> & Hb).
  bind_inv H as vc Ec. apply broadcast_Vector_Ok in Ec as (c & -> & Hc).
  bind_inv H as d Ed.
  bind_inv H as p1 E1. apply dot_Vector_Ok in E1 as (L1 & q1 & ->).
  rewrite length_map in L1.
  bind_inv H as p1' E1'. bind_inv H as l El.
  destruct vn0 as [z|ns].
  - (* the two screen axes have 2 components: [float] gets 2 values *)
    exfalso. revert Ed. cbn. intros Ed. injection Ed as <-.
    revert E1'. cbn. intros E1'. injection E1' as <-.
    apply to_float_Vector_Ok in El. rewrite !length_map in El. lia.
  - revert Ed. cbn. intros Ed. apply dot_Vector_Ok in Ed as (Ld & q & ->).
    rewrite length_map in Ld.
    bind_inv H as p2 E2. apply dot_Vector_Ok in E2 as (L2 & _).
    rewrite length_map in L2.
    bind_inv H as p2' E2'. bind_inv H as r E2''.
    bind_inv H as p3 E3. apply dot_Vector_Ok in E3 as (L3 & _).
    rewrite length_map in L3.
    bind_inv H as p3' E3'. bind_inv H as bo E3''.
    bind_inv H as p4 E4. apply dot_Vector_Ok in E4 as (L4 & _).
    rewrite length_map in L4.
    unfold compatible in *. lia.
Qed.

Ltac step_shape lem :=
  match goal with
  | |- bind ?m _ = Raise _ -> _ =>
      let E := fresh "E" in
      let H := fresh "H" in
      destruct m eqn:E;
      [ clear E; cbn [bind]
      | cbn [bind]; intros H; injection H as <-;
        first [ left; revert E; apply lem | right; revert E; apply lem ] ]
  end.

Lemma offAxisFrustum_Raise bl br tl eye near far e :
  offAxisFrustum bl br tl eye near far = Raise e -> shape_error e.
Proof.
  unfold offAxisFrustum, np.asarray, np.multiply, shape_error.
  do 2 step_shape broadcast_Raise.
  step_shape cross_Raise.
  do 3 step_shape broadcast_Raise.
  step_shape dot_Raise.
  do 4 (step_shape dot_Raise; step_shape broadcast_Raise;
        step_shape to_float_Raise).
  discriminate.
Qed.

(** C9 as stated fails: an eye position of one component is broadcast, an
    up vector of two components is padded with a zero, and [lookAt] returns
    a matrix. *)
Lemma lookAt_short_vectors_return :
  ~ rejects_malformed_lookAt [Fin 5] [Fin 0; Fin 0; Fin 0] [Fin 0; Fin 1; Fin 0] /\
  ~ rejects_malformed_lookAt [Fin 0; Fin 0; Fin 5] [Fin 0; Fin 0; Fin 0] [Fin 0; Fin 1].
Proof.
  split; intros H.
  - destruct H as [e He]; [left; discriminate|].
    destruct (@lookAt_returns [Fin 5] [Fin 0; Fin 0; Fin 0] [Fin 0; Fin 1; Fin 0])
      as [M HM]; [simpl; lia|].
    rewrite HM in He. discriminate.
  - destruct H as [e He]; [right; right; discriminate|].
    destruct (@lookAt_returns [Fin 0; Fin 0; Fin 5] [Fin 0; Fin 0; Fin 0] [Fin 0; Fin 1])
      as [M HM]; [simpl; lia|].
    rewrite HM in He. discriminate.
Qed.

(** The same in [generalPerspectiveProjection]: an eye position of one
    component is broadcast against the three screen corners. *)
Lemma generalPerspectiveProjection_short_eye_returns :
  returns (generalPerspectiveProjection
             [Fin (-1); Fin (-1); Fin (-2)] [Fin 1; Fin (-1); Fin (-2)]
             [Fin (-1); Fin 1; Fin (-2)] [Fin 0] 1 10).
Proof.
  assert (E : offAxisFrustum
                [Fin (-1); Fin (-1); Fin (-2)] [Fin 1; Fin (-1); Fin (-2)]
                [Fin (-1); Fin 1; Fin (-2)] [Fin 0] 1 10
              = Ok (mkOffAxis
                      (np.Vector [Fin 1; Fin 0; Fin 0])
                      (np.Vector [Fin 0; Fin 1; Fin 0])
                      (np.Vector [Fin 0; Fin 0; Fin 1])
                      (mkFrustum (Fin (-1 / 2)) (Fin (1 / 2))
                                 (Fin (-1 / 2)) (Fin (1 / 2)) 1 10))).
  { unfold offAxisFrustum. fl_eval. fl_sqrt 2. fl_sqrt 2. fl_sqrt 1. fin_eq. }
  unfold returns, generalPerspectiveProjection. rewrite E.
  cbn [bind bounds left right top bottom].
  unfold perspectiveProjectionMatrix. fl_eval.
  eexists. reflexivity.
Qed.

(** C9, as amended: there is no shape check and no error of its own.  A
    vector argument whose number of components is not 1 or 3 (not 2 or 3
    for [upVec]) makes [lookAt] raise numpy's [ValueError] and
    [generalPerspectiveProjection] raise [ValueError] or [TypeError]; no
    result is returned. *)
Theorem malformed_vectors_raise
    (eyePos centerPos upVec : list float)
    (posBottomLeft posBottomRight posTopLeft eye : list float)
    (nearClip farClip : float) :
  malformed_lookAt eyePos centerPos upVec ->
  malformed_screen posBottomLeft posBottomRight posTopLeft eye ->
  lookAt eyePos centerPos upVec = Raise ValueError /\
  exists e,
    generalPerspectiveProjection posBottomLeft posBottomRight posTopLeft eye
      nearClip farClip = Raise e /\ shape_error e.
Proof.
  intros Hl Hs. split.
  - destruct (lookAt eyePos centerPos upVec) as [M|e] eqn:E.
    + apply lookAt_Ok_lengths in E. unfold malformed_lookAt in Hl.
      simpl in Hl. exfalso. intuition lia.
    + f_equal. now apply lookAt_Raise in E.
  - unfold generalPerspectiveProjection.
    destruct (offAxisFrustum _ _ _ _ _ _) as [o|e] eqn:E.
    + apply offAxisFrustum_Ok_lengths in E. unfold malformed_screen in Hs.
      simpl in Hs. exfalso. intuition lia.
    + exists e. split; [reflexivity|]. now apply offAxisFrustum_Raise in E.
Qed.

(** Positions of four components in [lookAt], of two components in
    [generalPerspectiveProjection]. *)
Lemma malformed_vectors_raise_example :
  malformed_lookAt [Fin 0; Fin 0; Fin 5; Fin 1] [Fin 0; Fin 0; Fin 0; Fin 1]
    [Fin 0; Fin 1; Fin 0] /\
  malformed_screen [Fin (-1); Fin (-1)] [Fin 1; Fin (-1)] [Fin (-1); Fin 1]
    [Fin 0; Fin 0] /\
  lookAt [Fin 0; Fin 0; Fin 5; Fin 1] [Fin 0; Fin 0; Fin 0; Fin 1]
    [Fin 0; Fin 1; Fin 0] = Raise ValueError /\
  exists e,
    generalPerspectiveProjection [Fin (-1); Fin (-1)] [Fin 1; Fin (-1)]
      [Fin (-1); Fin 1] [Fin 0; Fin 0] 1 10 = Raise e /\ shape_error e.
Proof.
  assert (H1 : malformed_lookAt [Fin 0; Fin 0; Fin 5; Fin 1]
                 [Fin 0; Fin 0; Fin 0; Fin 1] [Fin 0; Fin 1; Fin 0]).
  { left. simpl. intuition discriminate. }
  assert (H2 : malformed_screen [Fin (-1); Fin (-1)] [Fin 1; Fin (-1)]
                 [Fin (-1); Fin 1] [Fin 0; Fin 0]).
  { left. simpl. intuition discriminate. }
  split; [exact H1|]. split; [exact H2|].
  exact (malformed_vectors_raise 1 10 H1 H2).
Defined.

(** * Further properties *)

(** ** [computeFrustum] *)

(** X1: on finite arguments [computeFrustum] returns exactly when
    [convergeOffset + scrDist] and [scrAspect] are both non-zero; otherwise
    it raises [ZeroDivisionError]. *)
Theorem computeFrustum_returns_iff
    (scrWidth scrAspect scrDist convergeOffset eyeOffset nearClip farClip : R) :
  (returns (computeFrustum scrWidth scrAspect scrDist convergeOffset eyeOffset
              nearClip farClip)
   <-> convergeOffset + scrDist <> 0 /\ scrAspect <> 0) /\
  (computeFrustum scrWidth scrAspect scrDist convergeOffset eyeOffset
     nearClip farClip = Raise ZeroDivisionError
   <-> convergeOffset + scrDist = 0 \/ scrAspect = 0).
Proof.
  unfold returns, computeFrustum.
  destruct (Req_dec_T (convergeOffset + scrDist) 0) as [Hd|Hd];
    destruct (Req_dec_T scrAspect 0) as [Ha|Ha]; fl_eval;
    (split; split;
     [ try (intros [x Hx]; discriminate); try (intros _; split; assumption)
     | try (intros [H1 H2]; contradiction); try (intros _; eexists; reflexivity)
     | try discriminate; auto
     | try (intros [H|H]; contradiction); auto ]).
Qed.

(** ** The projection builders *)

(** X4: on finite scalars both builders return exactly when [right <> left],
    [top <> bottom] and [far <> near]; otherwise they raise
    [ZeroDivisionError]. *)
Theorem projection_builders_return_iff (l r b t n f : R) :
  (returns (perspectiveProjectionMatrix l r b t n f)
   <-> r <> l /\ t <> b /\ f <> n) /\
  (perspectiveProjectionMatrix l r b t n f = Raise ZeroDivisionError
   <-> r = l \/ t = b \/ f = n) /\
  (returns (orthoProjectionMatrix l r b t n f)
   <-> r <> l /\ t <> b /\ f <> n) /\
  (orthoProjectionMatrix l r b t n f = Raise ZeroDivisionError
   <-> r = l \/ t = b \/ f = n).
Proof.
  unfold returns, perspectiveProjectionMatrix, orthoProjectionMatrix.
  destruct (Req_dec_T r l) as [Hr|Hr];
    destruct (Req_dec_T t b) as [Ht|Ht];
    destruct (Req_dec_T f n) as [Hf|Hf]; fl_eval;
    repeat split;
    try (intros [M HM]; discriminate);
    try (intros (H1 & H2 & H3); contradiction);
    try discriminate;
    try (intros [H|[H|H]]; contradiction);
    try (intros _; eexists; reflexivity);
    auto;
    try match goal with
        | H : exists _, Raise _ = Ok _ |- _ => destruct H; discriminate
        end.
Qed.

(** X5: the last column of a returned matrix does not depend on the
    frustum, whatever the six scalars are: it is [(0, 0, -1, 0)] for
    [perspectiveProjectionMatrix], so that a view-space point
    [(x, y, z, 1)] gets the clip coordinate [w = - z], and [(0, 0, 0, 1)]
    for [orthoProjectionMatrix], which leaves [w = 1]. *)
Theorem projection_w_component (l r b t n f : float) (x y z : R) :
  (forall P,
     perspectiveProjectionMatrix l r b t n f = Ok P ->
     np.column P 3 = [Fin 0; Fin 0; Fin (-1); Fin 0] /\
     nth 3 (premultiply [Fin x; Fin y; Fin z; Fin 1] P) NaN = Fin (- z)) /\
  (forall M,
     orthoProjectionMatrix l r b t n f = Ok M ->
     np.column M 3 = [Fin 0; Fin 0; Fin 0; Fin 1] /\
     nth 3 (premultiply [Fin x; Fin y; Fin z; Fin 1] M) NaN = Fin 1).
Proof.
  split.
  - intros P. unfold perspectiveProjectionMatrix.
    destruct (truediv_cases (Fin 2 * n)%fl (r - l)%fl) as [-> | ->]; [discriminate|].
    destruct (truediv_cases (Fin 2 * n)%fl (t - b)%fl) as [-> | ->]; [discriminate|].
    destruct (truediv_cases (r + l)%fl (r - l)%fl) as [-> | ->]; [discriminate|].
    destruct (truediv_cases (t + b)%fl (t - b)%fl) as [-> | ->]; [discriminate|].
    destruct (truediv_cases (- (f + n))%fl (f - n)%fl) as [-> | ->]; [discriminate|].
    destruct (truediv_cases (- (Fin 2 * f * n))%fl (f - n)%fl) as [-> | ->];
      [discriminate|].
    simpl. intros H. injection H as <-.
    split; [reflexivity|]. unfold premultiply. simpl. apply f_equal. ring.
  - intros M. unfold orthoProjectionMatrix.
    destruct (truediv_cases (Fin 2) (r - l)%fl) as [-> | ->]; [discriminate|].
    destruct (truediv_cases (Fin 2) (t - b)%fl) as [-> | ->]; [discriminate|].
    destruct (truediv_cases (- Fin 2)%fl (f - n)%fl) as [-> | ->]; [discriminate|].
    destruct (truediv_cases (r + l)%fl (r - l)%fl) as [-> | ->]; [discriminate|].
    destruct (truediv_cases (t + b)%fl (t - b)%fl) as [-> | ->]; [discriminate|].
    destruct (truediv_cases (f + n)%fl (f - n)%fl) as [-> | ->]; [discriminate|].
    simpl. intros H. injection H as <-.
    split; [reflexivity|]. unfold premultiply. simpl. apply f_equal. ring.
Qed.

(** The frustum [(-1, 1, -1, 1, 1, 10)] and the point [(2, 3, -5)]. *)
Lemma projection_w_component_example :
  exists P,
    perspectiveProjectionMatrix (-1) 1 (-1) 1 1 10 = Ok P /\
    nth 3 (premultiply [Fin 2; Fin 3; Fin (-5); Fin 1] P) NaN = Fin (- -5).
Proof.
  assert (E : exists P, perspectiveProjectionMatrix (-1) 1 (-1) 1 1 10 = Ok P).
  { unfold perspectiveProjectionMatrix. fl_eval. eexists. reflexivity. }
  destruct E as [P HP]. exists P. split; [exact HP|].
  exact (proj2 (proj1 (@projection_w_component (-1) 1 (-1) 1 1 10 2 3 (-5)) P HP)).
Defined.

(** ** The shape of the results *)

Lemma update_length {A : Type} (l : list A) n v :
  length (update l n v) = length l.
Proof. revert n. induction l as [|a l IH]; intros [|n]; simpl; auto. Qed.

Lemma Forall_update {A : Type} (P : A -> Prop) (l : list A) n v :
  Forall P l -> P v -> Forall P (update l n v).
Proof.
  intros Hl Hv. revert n. induction Hl as [|a l Ha Hl IH]; intros [|n]; simpl;
    constructor; auto.
Qed.

Lemma setitem_4x4 M i j v M' :
  is4x4 M -> setitem M i j v = Ok M' -> is4x4 M'.
Proof.
  intros [HL HR]. unfold setitem.
  destruct (nth_error M i) as [row|] eqn:E; [|discriminate].
  destruct (j <? length row)%nat; [|discriminate].
  intros H. injection H as <-. split.
  - now rewrite update_length.
  - apply Forall_update; [exact HR|]. rewrite update_length.
    rewrite Forall_forall in HR. apply HR. eapply nth_error_In; eauto.
Qed.

Lemma setcol3_4x4 M j a M' :
  is4x4 M -> setcol3 M j a = Ok M' -> is4x4 M'.
Proof.
  intros HM H. unfold setcol3 in H.
  apply bind_Ok in H as (v & _ & H).
  apply bind_Ok in H as (M1 & E1 & H).
  apply bind_Ok in H as (M2 & E2 & H).
  eauto using setitem_4x4.
Qed.

Lemma setrow3_4x4 M i a M' :
  is4x4 M -> setrow3 M i a = Ok M' -> is4x4 M'.
Proof.
  intros HM H. unfold setrow3 in H.
  apply bind_Ok in H as (v & _ & H).
  apply bind_Ok in H as (M1 & E1 & H).
  apply bind_Ok in H as (M2 & E2 & H).
  eauto using setitem_4x4.
Qed.

Lemma zeros_4x4 : is4x4 (np.zeros 4 4).
Proof. split; [reflexivity | repeat constructor]. Qed.

Lemma identity_4x4 : is4x4 (np.fill_diagonal (np.zeros 4 4) (Fin 1)).
Proof. split; [reflexivity | repeat constructor]. Qed.

Lemma matmul_4x4 A B : is4x4 A -> is4x4 B -> is4x4 (np.matmul A B).
Proof.
  intros [HA _] [HB _]. unfold np.matmul. split.
  - now rewrite length_map.
  - apply Forall_forall. intros row Hrow.
    apply in_map_iff in Hrow as (r & <- & _).
    now rewrite length_map, length_seq.
Qed.

Ltac bind_all H :=
  repeat (let x := fresh "x" in let E := fresh "E" in
          apply bind_Ok in H; destruct H as (x & E & H)).

Ltac shapes :=
  repeat match goal with
    | HM : is4x4 ?M, H : setitem ?M _ _ _ = Ok _ |- _ =>
        eapply setitem_4x4 in H; [|exact HM]
    | HM : is4x4 ?M, H : setcol3 ?M _ _ = Ok _ |- _ =>
        eapply setcol3_4x4 in H; [|exact HM]
    | HM : is4x4 ?M, H : setrow3 ?M _ _ = Ok _ |- _ =>
        eapply setrow3_4x4 in H; [|exact HM]
    end.

Lemma ortho_4x4 l r b t n f M :
  orthoProjectionMatrix l r b t n f = Ok M -> is4x4 M.
Proof.
  unfold orthoProjectionMatrix. intros H. bind_all H.
  injection H as <-. pose proof zeros_4x4. shapes. assumption.
Qed.

Lemma perspective_4x4 l r b t n f M :
  perspectiveProjectionMatrix l r b t n f = Ok M -> is4x4 M.
Proof.
  unfold perspectiveProjectionMatrix. intros H. bind_all H.
  injection H as <-. pose proof zeros_4x4. shapes. assumption.
Qed.

Lemma lookAt_4x4 eye center up M : lookAt eye center up = Ok M -> is4x4 M.
Proof.
  unfold lookAt. intros H. bind_all H. injection H as <-.
  pose proof zeros_4x4. pose proof identity_4x4. shapes.
  now apply matmul_4x4.
Qed.

Lemma gpp_4x4 bl br tl eye n f P V :
  generalPerspectiveProjection bl br tl eye n f = Ok (P, V) ->
  is4x4 P /\ is4x4 V.
Proof.
  unfold generalPerspectiveProjection. intros H. bind_all H.
  injection H as <- <-.
  pose proof zeros_4x4. pose proof identity_4x4. shapes.
  split; [eapply perspective_4x4; eauto | now apply matmul_4x4].
Qed.

(** X7: whatever the arguments are (non-finite floats, broadcast
    vectors), a matrix returned by [orthoProjectionMatrix],
    [perspectiveProjectionMatrix], [lookAt] or
    [generalPerspectiveProjection] has four rows of four entries. *)
Theorem returned_matrices_4x4 :
  (forall l r b t n f M, orthoProjectionMatrix l r b t n f = Ok M -> is4x4 M) /\
  (forall l r b t n f M,
     perspectiveProjectionMatrix l r b t n f = Ok M -> is4x4 M) /\
  (forall eye center up M, lookAt eye center up = Ok M -> is4x4 M) /\
  (forall bl br tl eye n f P V,
     generalPerspectiveProjection bl br tl eye n f = Ok (P, V) ->
     is4x4 P /\ is4x4 V).
Proof.
  split; [exact ortho_4x4|]. split; [exact perspective_4x4|].
  split; [exact lookAt_4x4 | exact gpp_4x4].
Qed.

(** A call of [lookAt] with an eye position of one component. *)
Lemma returned_matrices_4x4_example :
  exists M,
    lookAt [Fin 5] [Fin 0; Fin 0; Fin 0] [Fin 0; Fin 1; Fin 0] = Ok M /\
    is4x4 M.
Proof.
  destruct (@lookAt_returns [Fin 5] [Fin 0; Fin 0; Fin 0] [Fin 0; Fin 1; Fin 0])
    as [M HM]; [simpl; lia|].
  exists M. split; [exact HM|].
  exact (proj1 (proj2 (proj2 returned_matrices_4x4)) _ _ _ _ HM).
Defined.

(** ** [lookAt] *)

(** X8: [lookAt] returns exactly when [eyePos] and [centerPos] have 1 or 3
    components, one of them 3, and [upVec] has 2 or 3; with any other
    lengths it raises [ValueError], and it raises nothing else. *)
Theorem lookAt_returns_iff (eyePos centerPos upVec : list float) :
  (returns (lookAt eyePos centerPos upVec)
   <-> lookAt_lengths eyePos centerPos upVec) /\
  (lookAt eyePos centerPos upVec = Raise ValueError
   <-> ~ lookAt_lengths eyePos centerPos upVec).
Proof.
  unfold lookAt_lengths. split; split.
  - intros [M HM]. exact (lookAt_Ok_lengths _ _ _ HM).
  - apply lookAt_returns.
  - intros E H. destruct (lookAt_returns _ _ _ H) as [M HM].
    rewrite HM in E. discriminate.
  - intros H. destruct (lookAt eyePos centerPos upVec) as [M|e] eqn:E.
    + exfalso. apply H. exact (lookAt_Ok_lengths _ _ _ E).
    + f_equal. exact (lookAt_Raise _ _ _ E).
Qed.

(** NaN absorbs every operation. *)
Lemma fmul_NaN_l y : fmul NaN y = NaN.
Proof. now destruct y. Qed.
Lemma fmul_NaN_r x : fmul x NaN = NaN.
Proof. now destruct x. Qed.
Lemma fsub_NaN_l y : fsub NaN y = NaN.
Proof. now destruct y. Qed.
Lemma fsub_NaN_r x : fsub x NaN = NaN.
Proof. now destruct x. Qed.
Lemma fadd_NaN_l y : fadd NaN y = NaN.
Proof. now destruct y. Qed.
Lemma fadd_NaN_r x : fadd x NaN = NaN.
Proof. now destruct x. Qed.
Lemma fdiv_NaN_l y : fdiv NaN y = NaN.
Proof. now destruct y. Qed.
Lemma fdiv_NaN_r x : fdiv x NaN = NaN.
Proof. now destruct x. Qed.

Ltac nan_simpl :=
  repeat (rewrite ?fmul_NaN_l, ?fmul_NaN_r, ?fsub_NaN_l, ?fsub_NaN_r,
            ?fadd_NaN_l, ?fadd_NaN_r, ?fdiv_NaN_l, ?fdiv_NaN_r; simpl).

Lemma norm3_zero a1 a2 a3 :
  a1 = 0 -> a2 = 0 -> a3 = 0 -> sqrt (sq3 a1 a2 a3) = 0.
Proof.
  intros -> -> ->. unfold sq3.
  replace (0 + 0 * 0 + 0 * 0 + 0 * 0) with 0 by ring. apply sqrt_0.
Qed.

(** Normalising a finite 3-vector gives the unit vector, or NaN three
    times for the zero vector. *)
Lemma unit_vector_cases a1 a2 a3 :
  let v := np.Vector [Fin a1; Fin a2; Fin a3] in
  (a1 = 0 /\ a2 = 0 /\ a3 = 0 /\
   np.divide_scalar v (np.linalg.norm v) = np.Vector [NaN; NaN; NaN]) \/
  (~ (a1 = 0 /\ a2 = 0 /\ a3 = 0) /\
   np.divide_scalar v (np.linalg.norm v)
   = np.Vector [Fin (a1 / sqrt (sq3 a1 a2 a3));
                Fin (a2 / sqrt (sq3 a1 a2 a3));
                Fin (a3 / sqrt (sq3 a1 a2 a3))]).
Proof.
  simpl. rewrite fsqrt_sq3.
  destruct (Req_dec_T a1 0) as [E1|E1];
    [destruct (Req_dec_T a2 0) as [E2|E2];
     [destruct (Req_dec_T a3 0) as [E3|E3]|]|].
  - left. repeat split; auto.
    rewrite !fdiv_zero_zero; auto using norm3_zero.
  - right. assert (H : ~ (a1 = 0 /\ a2 = 0 /\ a3 = 0)) by tauto.
    split; [exact H|]. now rewrite !(fdiv_fin _ (norm3_nonzero H)).
  - right. assert (H : ~ (a1 = 0 /\ a2 = 0 /\ a3 = 0)) by tauto.
    split; [exact H|]. now rewrite !(fdiv_fin _ (norm3_nonzero H)).
  - right. assert (H : ~ (a1 = 0 /\ a2 = 0 /\ a3 = 0)) by tauto.
    split; [exact H|]. now rewrite !(fdiv_fin _ (norm3_nonzero H)).
Qed.

Lemma unit_NaN :
  np.divide_scalar (np.Vector [NaN; NaN; NaN])
    (np.linalg.norm (np.Vector [NaN; NaN; NaN])) = np.Vector [NaN; NaN; NaN].
Proof. reflexivity. Qed.

Lemma cross_NaN_l b1 b2 b3 :
  np.cross (np.Vector [NaN; NaN; NaN]) (np.Vector [b1; b2; b3])
  = Ok (np.Vector [NaN; NaN; NaN]).
Proof. simpl. now nan_simpl. Qed.

Lemma cross_NaN_r a1 a2 a3 :
  np.cross (np.Vector [a1; a2; a3]) (np.Vector [NaN; NaN; NaN])
  = Ok (np.Vector [NaN; NaN; NaN]).
Proof. simpl. now nan_simpl. Qed.

Lemma lookAt_up_nan (eyePos : list float) (f s : np.ndarray) b1 b2 b3 :
  f = np.Vector [b1; b2; b3] ->
  np.divide_scalar s (np.linalg.norm s) = np.Vector [NaN; NaN; NaN] ->
  (exists s1 s2 s3, s = np.Vector [s1; s2; s3]) ->
  length eyePos = 3%nat ->
  exists M,
    (u <- np.cross (np.divide_scalar s (np.linalg.norm s)) f ;;
     rotMat <- setcol3 (np.zeros 4 4) 0 s ;;
     rotMat <- setcol3 rotMat 1 u ;;
     rotMat <- setcol3 rotMat 2 (np.negative f) ;;
     rotMat <- setitem rotMat 3 3 (Fin 1) ;;
     transMat <- setrow3 (np.fill_diagonal (np.zeros 4 4) (Fin 1)) 3
                   (np.negative (np.Vector eyePos)) ;;
     Ok (np.matmul transMat rotMat)) = Ok M /\
    column3 M 1 = [NaN; NaN; NaN].
Proof.
  intros -> -> (s1 & s2 & s3 & ->) He.
  destruct eyePos as [|e1 [|e2 [|e3 [|e4 eyePos]]]]; try discriminate.
  rewrite cross_NaN_l. simpl.
  eexists. split; [reflexivity|].
  unfold column3. simpl. now nan_simpl.
Qed.

(** X10: when every product of the cross product of
    [centerPos - eyePos] and [upVec] has a zero factor, which is the case
    when [centerPos] equals [eyePos], when [upVec] is the zero vector and
    when the two lie along the same coordinate axis, [lookAt] raises
    nothing and returns a matrix whose second column, the recomputed up
    vector, is NaN.  Either a normalisation divides zero by zero, or the
    cross product is the zero vector and its normalisation does. *)
Theorem lookAt_degenerate_nan (e1 e2 e3 c1 c2 c3 u1 u2 u3 : R) :
  (c2 = e2 \/ u3 = 0) -> (c3 = e3 \/ u2 = 0) ->
  (c3 = e3 \/ u1 = 0) -> (c1 = e1 \/ u3 = 0) ->
  (c1 = e1 \/ u2 = 0) -> (c2 = e2 \/ u1 = 0) ->
  exists M,
    lookAt [Fin e1; Fin e2; Fin e3] [Fin c1; Fin c2; Fin c3]
      [Fin u1; Fin u2; Fin u3] = Ok M /\
    column3 M 1 = [NaN; NaN; NaN].
Proof.
  intros H23 H32 H31 H13 H12 H21.
  set (F1 := c1 - e1). set (F2 := c2 - e2). set (F3 := c3 - e3).
  assert (X1 : F2 * u3 - F3 * u2 = 0)
    by (unfold F2, F3; destruct H23 as [-> | ->]; destruct H32 as [-> | ->]; ring).
  assert (X2 : F3 * u1 - F1 * u3 = 0)
    by (unfold F1, F3; destruct H31 as [-> | ->]; destruct H13 as [-> | ->]; ring).
  assert (X3 : F1 * u2 - F2 * u1 = 0)
    by (unfold F1, F2; destruct H12 as [-> | ->]; destruct H21 as [-> | ->]; ring).
  clear H23 H32 H31 H13 H12 H21.
  unfold lookAt, np.asarray.
  cbn [np.subtract np.broadcast length Nat.eqb map2 bind fsub].
  fold F1 F2 F3.
  pose proof (unit_vector_cases F1 F2 F3) as HF. cbv zeta in HF.
  pose proof (unit_vector_cases u1 u2 u3) as HU. cbv zeta in HU.
  destruct HF as [(_ & _ & _ & EF) | (HF & EF)]; rewrite EF.
  - destruct HU as [(_ & _ & _ & EU) | (_ & EU)]; rewrite EU;
      rewrite cross_NaN_l; cbn [bind];
      apply lookAt_up_nan with (b1 := NaN) (b2 := NaN) (b3 := NaN);
      eauto using unit_NaN.
  - destruct HU as [(_ & _ & _ & EU) | (HU & EU)]; rewrite EU.
    + rewrite cross_NaN_r; cbn [bind].
      eapply lookAt_up_nan; eauto using unit_NaN.
    + cbn [np.cross bind fmul fsub].
      pose proof (norm3_nonzero HF) as HnF. pose proof (norm3_nonzero HU) as HnU.
      set (nF := sqrt (sq3 F1 F2 F3)) in *. set (nU := sqrt (sq3 u1 u2 u3)) in *.
      match goal with
      | |- context [np.cross (np.divide_scalar (np.Vector [Fin ?a; Fin ?b; Fin ?c]) _) _] =>
          pose proof (unit_vector_cases a b c) as HS; cbv zeta in HS;
          assert (Za : a = 0) by
            (replace a with ((F2 * u3 - F3 * u2) / (nF * nU)) by (field; auto);
             rewrite X1; field; auto);
          assert (Zb : b = 0) by
            (replace b with ((F3 * u1 - F1 * u3) / (nF * nU)) by (field; auto);
             rewrite X2; field; auto);
          assert (Zc : c = 0) by
            (replace c with ((F1 * u2 - F2 * u1) / (nF * nU)) by (field; auto);
             rewrite X3; field; auto)
      end.
      destruct HS as [(_ & _ & _ & ES) | (HS & _)]; [|tauto].
      eapply lookAt_up_nan; eauto.
Qed.

(** Looking along the up vector: eye at [(0, 0, 5)], centre at the
    origin, up vector [(0, 0, 1)]. *)
Lemma lookAt_degenerate_nan_example :
  (0 = 0 \/ 1 = 0) /\ (0 = 5 \/ 0 = 0) /\ (0 = 5 \/ 0 = 0) /\
  (0 = 0 \/ 1 = 0) /\ (0 = 0 \/ 0 = 0) /\ (0 = 0 \/ 0 = 0) /\
  exists M,
    lookAt [Fin 0; Fin 0; Fin 5] [Fin 0; Fin 0; Fin 0]
      [Fin 0; Fin 0; Fin 1] = Ok M /\
    column3 M 1 = [NaN; NaN; NaN].
Proof.
  split; [left; reflexivity|]. split; [right; reflexivity|].
  split; [right; reflexivity|]. split; [left; reflexivity|].
  split; [left; reflexivity|]. split; [left; reflexivity|].
  apply (@lookAt_degenerate_nan 0 0 5 0 0 0 0 0 1);
    first [left; reflexivity | right; reflexivity].
Defined.

(** ** [generalPerspectiveProjection] *)

Lemma fdiv_by_zero (a b : R) :
  b = 0 -> ~ finite (fdiv (Fin a) (Fin b)).
Proof.
  intros Hb. unfold fdiv. rewrite (Rzero_true Hb).
  destruct (Rzero a); [|destruct (Rpos a)]; simpl; tauto.
Qed.

Lemma fmul_nonfinite (a : R) (y : float) :
  ~ finite y -> ~ finite (fmul (Fin a) y).
Proof.
  destruct y; simpl; try tauto; unfold scale_inf;
    destruct (Rzero a); try destruct (Rpos a); simpl; tauto.
Qed.

Lemma perspective_nonfinite_bounds (lf rt bt tp : float) (n f : R) :
  ~ finite lf -> ~ finite rt -> ~ finite bt -> ~ finite tp -> f <> n ->
  exists P,
    perspectiveProjectionMatrix lf rt bt tp n f = Ok P /\
    getitem P 2 0 = NaN /\ getitem P 2 1 = NaN.
Proof.
  intros HL HR HB HT Hfn.
  assert (Hd : Rzero (f - n) = false) by (apply Rzero_false; lra).
  destruct lf; try (simpl in HL; tauto);
    destruct rt; try (simpl in HR; tauto);
    destruct bt; try (simpl in HB; tauto);
    destruct tp; try (simpl in HT; tauto);
    unfold perspectiveProjectionMatrix, truediv, fdiv; simpl;
    rewrite Hd; simpl; eexists; (split; [reflexivity|]);
    split; reflexivity.
Qed.

(** X16: with the eye in the plane of a screen parallel to the xy plane
    nothing is raised: the distance is zero, numpy's division makes the
    four bounds infinite or NaN, and the projection matrix comes back with
    NaN in its two shear terms. *)
Theorem generalPerspectiveProjection_eye_on_screen
    (x0 y0 z0 W H ex ey n f : R) :
  0 < W -> 0 < H -> f <> n ->
  exists P V,
    generalPerspectiveProjection
      [Fin x0; Fin y0; Fin z0] [Fin (x0 + W); Fin y0; Fin z0]
      [Fin x0; Fin (y0 + H); Fin z0] [Fin ex; Fin ey; Fin z0] n f
      = Ok (P, V) /\
    getitem P 2 0 = NaN /\ getitem P 2 1 = NaN.
Proof.
  intros HW HH Hfn.
  assert (E : exists lf rt bt tp,
    offAxisFrustum [Fin x0; Fin y0; Fin z0] [Fin (x0 + W); Fin y0; Fin z0]
      [Fin x0; Fin (y0 + H); Fin z0] [Fin ex; Fin ey; Fin z0] n f
    = Ok (mkOffAxis (np.Vector [Fin 1; Fin 0; Fin 0])
            (np.Vector [Fin 0; Fin 1; Fin 0])
            (np.Vector [Fin 0; Fin 0; Fin 1])
            (mkFrustum lf rt bt tp n f)) /\
    ~ finite lf /\ ~ finite rt /\ ~ finite bt /\ ~ finite tp).
  { unfold offAxisFrustum.
    cbn [np.asarray np.subtract np.broadcast length Nat.eqb map2 bind fsub].
    fl_eval. fl_sqrt_field W. fl_sqrt_field H. fl_sqrt_field 1.
    match goal with
    | |- context [fdiv (Fin ?a) (Fin ?b)] =>
        assert (Hq : ~ finite (fdiv (Fin a) (Fin b)))
          by (apply fdiv_by_zero; field; lra);
        set (q := fdiv (Fin a) (Fin b)) in *
    end.
    eexists. eexists. eexists. eexists.
    split; [fin_eq|].
    repeat split; apply fmul_nonfinite; exact Hq. }
  destruct E as (lf & rt & bt & tp & E & Hl & Hr & Hb & Ht).
  destruct (@perspective_nonfinite_bounds lf rt bt tp n f Hl Hr Hb Ht Hfn) as (P & HP & P20 & P21).
  unfold generalPerspectiveProjection. rewrite E.
  cbn [bind bounds left right top bottom vr vu vn]. rewrite HP.
  simpl. eexists. eexists. split; [reflexivity|].
  split; assumption.
Qed.

(** The 2 x 2 screen at [z = -2], the eye on its lower left corner. *)
Lemma generalPerspectiveProjection_eye_on_screen_example :
  0 < 2 /\ 0 < 2 /\ 10 <> 1 /\
  exists P V,
    generalPerspectiveProjection
      [Fin (-1); Fin (-1); Fin (-2)] [Fin (-1 + 2); Fin (-1); Fin (-2)]
      [Fin (-1); Fin (-1 + 2); Fin (-2)] [Fin (-1); Fin (-1); Fin (-2)] 1 10
      = Ok (P, V) /\
    getitem P 2 0 = NaN /\ getitem P 2 1 = NaN.
Proof.
  split; [lra|]. split; [lra|]. split; [lra|].
  apply (@generalPerspectiveProjection_eye_on_screen
           (-1) (-1) (-2) 2 2 (-1) (-1) 1 10); lra.
Defined.
